(** * Silo: multi-node array allocation on Windows (memory-windows.cpp)

    A shallow embedding of the Windows back end of Silo's NUMA-aware
    allocator: the allocation-unit resolver, the size rounding helper, the
    single-node allocate/free wrappers and [siloMultinodeArrayAlloc].

    Conventions of the embedding.
    - [size_t] and pointers are 64-bit (the x64 Windows targets); every
      arithmetic operation the source performs on them is followed by an
      explicit reduction modulo [2^64].  [DWORD] is 32-bit.
    - The memory reachable through the [spec] pointer is a list of
      [SSiloMemorySpec] objects: the caller's array occupies the first
      [count] slots, whatever the list holds after them is the memory
      adjacent to the array.  An access outside the list, and a division by
      zero, have no defined behaviour ([Undefined]).
    - The operating system, the topology service and the pointer map are
      external: calls to them are recorded in a trace of events, and the
      answers of [VirtualAllocExNuma] come from an oracle that sees the
      events so far.
    - The [while] loop that pads the total is run with fuel; [OutOfFuel] is
      kept apart from [Undefined].
    - [new SSiloAllocationSpec[count]] is taken to succeed; the array it
      returns is the list of the entries written so far. *)

From Stdlib Require Import ZArith Lia Bool.
From stdpp Require Import base list.

Local Open Scope Z_scope.

(** ** Machine integers *)

Definition SIZE_MODULUS : Z := 2 ^ 64.
Definition DWORD_MODULUS : Z := 2 ^ 32.

(** Conversion to [size_t]: the value modulo [2^64]. *)
Definition size_t (z : Z) : Z := z mod SIZE_MODULUS.

(** Conversion to [DWORD]: the value modulo [2^32]. *)
Definition DWORD (z : Z) : Z := z mod DWORD_MODULUS.

Definition NULL : Z := 0.

(** Constants of <Windows.h> used by the file. *)
Definition MEM_COMMIT : Z := 0x1000.
Definition MEM_RESERVE : Z := 0x2000.
Definition MEM_RELEASE : Z := 0x8000.
Definition MEM_LARGE_PAGES : Z := 0x20000000.
Definition PAGE_READWRITE : Z := 0x04.

(** ** Data *)

(** [SSiloMemorySpec] (silo.h): one requested piece. *)
Record SSiloMemorySpec := mkMemorySpec {
  spec_size : Z;
  spec_numaNode : Z
}.

(** [SSiloAllocationSpec] (pointermap.h): one recorded piece. *)
Record SSiloAllocationSpec := mkAllocationSpec {
  alloc_ptr : Z;
  alloc_size : Z
}.

(** Calls that leave the file. *)
Inductive Event :=
| EvVirtualAllocExNuma
    (lpAddress dwSize flAllocationType flProtect nndPreferred result : Z)
| EvVirtualFreeEx (lpAddress dwSize dwFreeType : Z)
| EvPointerMapSubmit (count : nat) (specs : list SSiloAllocationSpec).

(** Accesses to the array behind the [spec] pointer, by element index. *)
Inductive Access :=
| SpecRead (i : nat)
| SpecWrite (i : nat).

(** What the file takes from its environment. *)
Record Platform := mkPlatform {
  dwAllocationGranularity : Z;          (* SYSTEM_INFO *)
  dwPageSize : Z;                       (* SYSTEM_INFO *)
  GetLargePageMinimum : Z;
  topoGetNUMANodeOSIndex : Z -> Z;      (* negative: no such node *)
  VirtualAllocExNuma : list Event -> Z -> Z -> Z -> Z -> Z -> Z
}.

Record State := mkState {
  spec_mem : list SSiloMemorySpec;
  accesses : list Access;
  trace : list Event
}.

(** ** Outcomes and the state monad of the embedding *)

Inductive outcome (A : Type) :=
| Returned (a : A) (s : State)
| Undefined
| OutOfFuel.

Arguments Returned {A} a s.
Arguments Undefined {A}.
Arguments OutOfFuel {A}.

Definition M (A : Type) : Type := State -> outcome A.

Definition ret {A} (a : A) : M A := fun s => Returned a s.

Definition bind {A B} (m : M A) (f : A -> M B) : M B :=
  fun s =>
    match m s with
    | Returned a s' => f a s'
    | Undefined => Undefined
    | OutOfFuel => OutOfFuel
    end.

Declare Scope silo_scope.
Delimit Scope silo_scope with silo.
Notation "'let*' x ':=' m 'in' k" := (bind m (fun x => k))
  (at level 10, x name, m at level 100, k at level 200) : silo_scope.
Notation "'run' m 'in' k" := (bind m (fun _ => k))
  (at level 10, m at level 100, k at level 200) : silo_scope.
Local Open Scope silo_scope.

Definition undefined {A} : M A := fun _ => Undefined.
Definition out_of_fuel {A} : M A := fun _ => OutOfFuel.

Definition log_event (e : Event) : M unit :=
  fun s => Returned tt (mkState (spec_mem s) (accesses s) (trace s ++ [e])).

(** [spec[i].size] as an rvalue. *)
Definition read_size (i : nat) : M Z :=
  fun s =>
    match spec_mem s !! i with
    | Some e => Returned (spec_size e)
                  (mkState (spec_mem s) (accesses s ++ [SpecRead i]) (trace s))
    | None => Undefined
    end.

(** [spec[i].numaNode] as an rvalue. *)
Definition read_numaNode (i : nat) : M Z :=
  fun s =>
    match spec_mem s !! i with
    | Some e => Returned (spec_numaNode e)
                  (mkState (spec_mem s) (accesses s ++ [SpecRead i]) (trace s))
    | None => Undefined
    end.

(** [spec[i].size = v]. *)
Definition write_size (i : nat) (v : Z) : M unit :=
  fun s =>
    match spec_mem s !! i with
    | Some e => Returned tt
                  (mkState (<[i := mkMemorySpec v (spec_numaNode e)]> (spec_mem s))
                           (accesses s ++ [SpecWrite i]) (trace s))
    | None => Undefined
    end.

(** ** Internal functions *)

Section Silo.

Variable P : Platform.

Definition siloWindowsMemoryAllocAtNUMA
    (size numaNode startPtr : Z) (shouldCommit useLargePageSupport : bool) : M Z :=
  fun s =>
    let flAllocationType :=
      Z.lor (Z.lor MEM_RESERVE (if shouldCommit then MEM_COMMIT else 0))
            (if useLargePageSupport then MEM_LARGE_PAGES else 0) in
    let result :=
      VirtualAllocExNuma P (trace s) startPtr size flAllocationType
                         PAGE_READWRITE numaNode in
    Returned result
      (mkState (spec_mem s) (accesses s)
         (trace s ++ [EvVirtualAllocExNuma startPtr size flAllocationType
                        PAGE_READWRITE numaNode result])).

Definition siloWindowsGetAllocationUnitSize (useLargePageSupport : bool) : Z :=
  let largePageSize :=
    if useLargePageSupport then DWORD (GetLargePageMinimum P) else 0 in
  let allocationUnitSize := dwAllocationGranularity P in
  let allocationUnitSize :=
    if dwPageSize P >? allocationUnitSize then dwPageSize P
    else allocationUnitSize in
  let allocationUnitSize :=
    if largePageSize >? allocationUnitSize then largePageSize
    else allocationUnitSize in
  allocationUnitSize.

(** [None]: the division by a zero allocation unit. *)
Definition siloWindowsRoundRequestedAllocationSize
    (unroundedSize : Z) (useLargePageSupport : bool) : option Z :=
  let allocationUnitSize := siloWindowsGetAllocationUnitSize useLargePageSupport in
  if allocationUnitSize =? 0 then None
  else
    let quotient := unroundedSize / allocationUnitSize in
    let remainder := unroundedSize mod allocationUnitSize in
    if remainder >=? allocationUnitSize / 2
    then Some (size_t (allocationUnitSize * (quotient + 1)))
    else Some (size_t (allocationUnitSize * quotient)).

(** The call of the rounding helper from [siloMultinodeArrayAlloc]. *)
Definition call_round (unroundedSize : Z) : M Z :=
  match siloWindowsRoundRequestedAllocationSize unroundedSize false with
  | Some rounded => ret rounded
  | None => undefined
  end.

(** ** Functions *)

Definition siloMemoryAllocNUMA (size numaNode : Z) : M Z :=
  siloWindowsMemoryAllocAtNUMA size numaNode NULL true false.

(** The [size] argument is not passed on to the system. *)
Definition siloMemoryFreeNUMA (ptr size : Z) : M unit :=
  log_event (EvVirtualFreeEx ptr 0 MEM_RELEASE).

(** Lines 111-119: the loop that checks the nodes, rounds the sizes in place
    and sums them.  [remaining] is [count - i]; [None] is the early
    [return NULL]. *)
Fixpoint validate_loop (remaining i : nat)
    (totalRequestedBytes totalActualBytes : Z) : M (option (Z * Z)) :=
  match remaining with
  | O => ret (Some (totalRequestedBytes, totalActualBytes))
  | S remaining' =>
      let* node := read_numaNode i in
      if 0 >? topoGetNUMANodeOSIndex P node then ret None
      else
        let* requested := read_size i in
        let totalRequestedBytes := size_t (totalRequestedBytes + requested) in
        let* unrounded := read_size i in
        let* rounded := call_round unrounded in
        run write_size i rounded in
        let* actual := read_size i in
        let totalActualBytes := size_t (totalActualBytes + actual) in
        validate_loop remaining' (S i) totalRequestedBytes totalActualBytes
  end.

(** Lines 126-130: the padding loop.  It adds to [spec[count].size]. *)
Fixpoint padding_loop (fuel : nat) (allocationUnitSize : Z) (count : nat)
    (totalRequestedBytes totalActualBytes : Z) {struct fuel} : M Z :=
  if totalActualBytes <? totalRequestedBytes then
    match fuel with
    | O => out_of_fuel
    | S fuel' =>
        let totalActualBytes := size_t (totalActualBytes + allocationUnitSize) in
        let* old := read_size count in
        run write_size count (size_t (old + allocationUnitSize)) in
        padding_loop fuel' allocationUnitSize count
                     totalRequestedBytes totalActualBytes
    end
  else ret totalActualBytes.

(** Lines 144-162: the loop that commits the pieces.  [allocationSpecs] holds
    the entries written so far, which are the entries [0 .. numAllocated-1]
    of the array of the source; [remaining] is [count - numAllocated].  The
    result is [(allocationSuccessful, numAllocated, allocatedBuffer,
    allocationSpecs)] at the exit of the loop. *)
Fixpoint commit_loop (remaining numAllocated : nat) (allocatedBuffer : Z)
    (allocationSpecs : list SSiloAllocationSpec)
    : M (bool * nat * Z * list SSiloAllocationSpec) :=
  match remaining with
  | O => ret (true, numAllocated, allocatedBuffer, allocationSpecs)
  | S remaining' =>
      let* size := read_size numAllocated in
      let* node := read_numaNode numAllocated in
      let* allocationResult :=
        siloWindowsMemoryAllocAtNUMA size (DWORD (topoGetNUMANodeOSIndex P node))
                                     allocatedBuffer true false in
      if NULL =? allocationResult
      then ret (false, numAllocated, allocatedBuffer, allocationSpecs)
      else
        let* recorded := read_size numAllocated in
        let allocationSpecs :=
          allocationSpecs ++ [mkAllocationSpec allocatedBuffer recorded] in
        let* step := read_size numAllocated in
        let allocatedBuffer := size_t (allocatedBuffer + step) in
        commit_loop remaining' (S numAllocated) allocatedBuffer allocationSpecs
  end.

(** Lines 168-169: the loop that frees the pieces after a failure;
    [remaining] is [numAllocated - i]. *)
Fixpoint rollback_loop (remaining i : nat)
    (allocationSpecs : list SSiloAllocationSpec) : M unit :=
  match remaining with
  | O => ret tt
  | S remaining' =>
      match allocationSpecs !! i with
      | Some piece =>
          run siloMemoryFreeNUMA (alloc_ptr piece) (alloc_size piece) in
          rollback_loop remaining' (S i) allocationSpecs
      | None => undefined
      end
  end.

Definition siloPointerMapSubmit (count : nat)
    (allocationSpecs : list SSiloAllocationSpec) : M unit :=
  log_event (EvPointerMapSubmit count allocationSpecs).

(** [spec] is the memory of the state; the result is the returned pointer. *)
Definition siloMultinodeArrayAlloc (fuel : nat) (count : nat) : M Z :=
  let allocationUnitSize := siloWindowsGetAllocationUnitSize false in
  let* totals := validate_loop count 0 0 0 in
  match totals with
  | None => ret NULL
  | Some (totalRequestedBytes, totalActualBytes) =>
      if 0 =? totalActualBytes then ret NULL
      else
        let* totalActualBytes :=
          padding_loop fuel allocationUnitSize count
                       totalRequestedBytes totalActualBytes in
        let* allocatedBuffer :=
          siloWindowsMemoryAllocAtNUMA totalActualBytes 0 NULL false false in
        if NULL =? allocatedBuffer then ret NULL
        else
          run siloMemoryFreeNUMA allocatedBuffer totalActualBytes in
          let* exit := commit_loop count 0 allocatedBuffer [] in
          let '(allocationSuccessful, numAllocated, _, allocationSpecs) := exit in
          if negb allocationSuccessful
          then
            run rollback_loop numAllocated 0 allocationSpecs in
            ret NULL
          else
            match allocationSpecs !! 0%nat with
            | Some first =>
                run siloPointerMapSubmit numAllocated allocationSpecs in
                ret (alloc_ptr first)
            | None => undefined
            end
  end.

End Silo.

(** ** Vocabulary of the statements *)

Section Vocabulary.

Variable P : Platform.

Local Abbreviation topo := (topoGetNUMANodeOSIndex P).

Definition Zsum (l : list Z) : Z := fold_right Z.add 0 l.

(** In-range values of [size_t]. *)
Definition is_size_t (z : Z) : Prop := 0 <= z < SIZE_MODULUS.

(** [e'] is [e] after the first loop: same node, size rounded. *)
Definition rounded_entry (e e' : SSiloMemorySpec) : Prop :=
  spec_numaNode e' = spec_numaNode e /\
  siloWindowsRoundRequestedAllocationSize P (spec_size e) false
    = Some (spec_size e').

(** The entries [i .. k-1] of [mem'] are those of [mem] with resolvable
    nodes and rounded sizes; all other entries are those of [mem]. *)
Definition validated (mem mem' : list SSiloMemorySpec) (i k : nat) : Prop :=
  length mem' = length mem /\
  (forall j, (i <= j < k)%nat ->
     exists e e', mem !! j = Some e /\ mem' !! j = Some e' /\
                  rounded_entry e e' /\ 0 <= topo (spec_numaNode e)) /\
  (forall j, ~ (i <= j < k)%nat -> mem' !! j = mem !! j).

(** Sizes of a list of requests, summed in [Z]. *)
Definition total_size (l : list SSiloMemorySpec) : Z := Zsum (map spec_size l).

(** The addresses of [pieces] start at [base], each piece begins where the
    one before it ends (in [size_t] arithmetic), and the last one ends at
    [stop]. *)
Fixpoint chained (base : Z) (pieces : list SSiloAllocationSpec) (stop : Z)
    : Prop :=
  match pieces with
  | [] => stop = base
  | p :: rest =>
      alloc_ptr p = base /\ chained (size_t (base + alloc_size p)) rest stop
  end.

(** The call that commits the piece at [address] for the request [e]. *)
Definition commit_event (e : SSiloMemorySpec) (address result : Z) : Event :=
  EvVirtualAllocExNuma address (spec_size e) (Z.lor MEM_RESERVE MEM_COMMIT)
    PAGE_READWRITE (DWORD (topo (spec_numaNode e))) result.

(** [p] records the request at index [j] of [mem], and [ev] is the
    successful call that committed it. *)
Definition committed_piece (mem : list SSiloMemorySpec) (j : nat)
    (p : SSiloAllocationSpec) (ev : Event) : Prop :=
  exists e result,
    mem !! j = Some e /\ alloc_size p = spec_size e /\
    ev = commit_event e (alloc_ptr p) result /\ result <> NULL.

Definition release_event (p : SSiloAllocationSpec) : Event :=
  EvVirtualFreeEx (alloc_ptr p) 0 MEM_RELEASE.

(** The probe: a reservation without commit, at an address the system
    chooses, on node 0. *)
Definition probe_event (total result : Z) : Event :=
  EvVirtualAllocExNuma NULL total MEM_RESERVE PAGE_READWRITE 0 result.

(** The calls of a run that got as far as the commit loop: the probe and
    its release, then the commits. *)
Definition placement_prefix (total base : Z) (commits : list Event)
    : list Event :=
  [probe_event total base; EvVirtualFreeEx base 0 MEM_RELEASE] ++ commits.

(** What a returning call has done.  [mem1] is the memory after the first
    loop, [total] the value of [totalActualBytes] after the padding loop. *)
Definition run_shape (count : nat) (s : State) (r : Z) (s' : State) : Prop :=
  (r = NULL /\ trace s' = trace s) \/
  exists mem1 total,
    validated (spec_mem s) mem1 0 count /\
    (exists k : nat,
       total = size_t (total_size (take count mem1)
                       + Z.of_nat k * siloWindowsGetAllocationUnitSize P false)) /\
    size_t (total_size (take count (spec_mem s))) <= total /\
    (forall j, j <> count -> spec_mem s' !! j = mem1 !! j) /\
    ((r = NULL /\ trace s' = trace s ++ [probe_event total NULL]) \/
     exists base pieces commits stop,
       base <> NULL /\
       length commits = length pieces /\
       chained base pieces stop /\
       (forall j p, pieces !! j = Some p ->
          exists ev, commits !! j = Some ev /\ committed_piece mem1 j p ev) /\
       ((r = NULL /\ (length pieces < count)%nat /\
         exists e, mem1 !! length pieces = Some e /\
           trace s' = trace s ++ placement_prefix total base commits
                        ++ [commit_event e stop NULL]
                        ++ map release_event pieces) \/
        (r = base /\ length pieces = count /\ (0 < count)%nat /\
         trace s' = trace s ++ placement_prefix total base commits
                      ++ [EvPointerMapSubmit count pieces]))).

(** [ev] is the successful call that committed the piece [p] for the
    request [e0] of the caller: at the address of [p], with the rounded
    size of [e0], on the node [e0] resolves to. *)
Definition commits_request (e0 : SSiloMemorySpec) (p : SSiloAllocationSpec)
    (ev : Event) : Prop :=
  siloWindowsRoundRequestedAllocationSize P (spec_size e0) false
    = Some (alloc_size p) /\
  0 <= topo (spec_numaNode e0) /\
  exists result,
    result <> NULL /\
    ev = EvVirtualAllocExNuma (alloc_ptr p) (alloc_size p)
           (Z.lor MEM_RESERVE MEM_COMMIT) PAGE_READWRITE
           (DWORD (topo (spec_numaNode e0))) result.

End Vocabulary.

(** ** A concrete platform: 4096-byte pages and allocation granularity *)

(** An operating system that grants every request: it answers a request
    without an address with [0x10000], and a request at an address with that
    address. *)
Definition grant_all (_ : list Event) (lpAddress _ _ _ _ : Z) : Z :=
  if lpAddress =? NULL then 0x10000 else lpAddress.

(** Logical nodes 0..3 exist and resolve to themselves. *)
Definition four_nodes (node : Z) : Z :=
  if (0 <=? node) && (node <? 4) then node else -1.

Definition unit4096 : Platform := mkPlatform 4096 4096 0 four_nodes grant_all.

(** The same system with a 3-byte allocation unit. *)
Definition unit3 : Platform := mkPlatform 3 3 0 four_nodes grant_all.

(** The state at the call: [mem] behind [spec], nothing logged yet. *)
Definition initial (mem : list SSiloMemorySpec) : State := mkState mem [] [].

(** ** The rounding rule as the specification words it *)

(** [res] is a multiple of [u] nearest to [s], and the larger one in a tie. *)
Definition nearest_multiple_ties_up (u s res : Z) : Prop :=
  (exists k, res = u * k) /\
  forall k, Z.abs (res - s) <= Z.abs (u * k - s) /\
            (Z.abs (res - s) = Z.abs (u * k - s) -> u * k <= res).

(** Rounding of [s] under the unit the resolver returns: a multiple of the
    unit, the nearest one with ties upwards, given by the quotient and the
    remainder, and zero below half a unit. *)
Definition rounds_to_nearest (P : Platform) (s : Z) (large : bool) : Prop :=
  let u := siloWindowsGetAllocationUnitSize P large in
  forall q r, s = u * q + r -> 0 <= r < u ->
    exists res,
      siloWindowsRoundRequestedAllocationSize P s large = Some res /\
      res mod u = 0 /\
      nearest_multiple_ties_up u s res /\
      res = (if u / 2 <=? r then u * (q + 1) else u * q) /\
      (r < u / 2 -> q = 0 -> res = 0).

(** Modelled from the spec: the pointer map ([siloPointerMapSubmit],
    pointermap.h) is not part of the sources; its [submit] stores a piece
    list under the address of the first piece of the list. *)
Definition registry_key (specs : list SSiloAllocationSpec) : option Z :=
  match specs with
  | [] => None
  | first :: _ => Some (alloc_ptr first)
  end.

(** The call asks for committed memory. *)
Definition commits_memory (ev : Event) : bool :=
  match ev with
  | EvVirtualAllocExNuma _ _ flAllocationType _ _ _ =>
      negb (Z.land flAllocationType MEM_COMMIT =? 0)
  | _ => false
  end.

(** [total] is the padded total of the [count] requests of [mem]: the sum of
    their rounded sizes plus a number of allocation units, in [size_t], and
    not below the sum of the requested sizes in [size_t]. *)
Definition padded_total (P : Platform) (count : nat)
    (mem : list SSiloMemorySpec) (total : Z) : Prop :=
  exists mem1 (k : nat),
    validated P mem mem1 0 count /\
    total = size_t (total_size (take count mem1)
                    + Z.of_nat k * siloWindowsGetAllocationUnitSize P false) /\
    size_t (total_size (take count mem)) <= total.

(** The call asked for committed memory and was refused. *)
Definition failed_commit (ev : Event) : bool :=
  match ev with
  | EvVirtualAllocExNuma _ _ flAllocationType _ _ result =>
      negb (Z.land flAllocationType MEM_COMMIT =? 0) && (result =? NULL)
  | _ => false
  end.

(** The call fails and leaves the trace and the memory behind [spec] as they
    were. *)
Definition fails_without_effect (P : Platform) (fuel count : nat) (s : State)
    : Prop :=
  exists s', siloMultinodeArrayAlloc P fuel count s = Returned NULL s' /\
             trace s' = trace s /\ spec_mem s' = spec_mem s.

(** ** Inputs used as examples *)

(** A system on which node 1 has no memory left: it refuses every request
    placed there, and grants the others as [grant_all] does. *)
Definition node1_exhausted (_ : list Event)
    (lpAddress _ _ _ nndPreferred : Z) : Z :=
  if lpAddress =? NULL then 0x10000
  else if nndPreferred =? 1 then NULL else lpAddress.

Definition unit4096_node1_exhausted : Platform :=
  mkPlatform 4096 4096 0 four_nodes node1_exhausted.

(** The worked example of the specification: two requests, of 10000 bytes
    on node 0 and 5000 bytes on node 1.  The third object is the memory that
    follows the caller's two-element array. *)
Definition scenario : State :=
  initial [mkMemorySpec 10000 0; mkMemorySpec 5000 1; mkMemorySpec 77 3].

(** The state the worked example ends in when every request is granted. *)
Definition scenario_final : State :=
  mkState
    [mkMemorySpec 8192 0; mkMemorySpec 4096 1; mkMemorySpec 4173 3]
    [SpecRead 0; SpecRead 0; SpecRead 0; SpecWrite 0; SpecRead 0;
     SpecRead 1; SpecRead 1; SpecRead 1; SpecWrite 1; SpecRead 1;
     SpecRead 2; SpecWrite 2;
     SpecRead 0; SpecRead 0; SpecRead 0; SpecRead 0;
     SpecRead 1; SpecRead 1; SpecRead 1; SpecRead 1]
    [EvVirtualAllocExNuma 0 16384 8192 4 0 65536;
     EvVirtualFreeEx 65536 0 32768;
     EvVirtualAllocExNuma 65536 8192 12288 4 0 65536;
     EvVirtualAllocExNuma 73728 4096 12288 4 1 73728;
     EvPointerMapSubmit 2
       [mkAllocationSpec 65536 8192; mkAllocationSpec 73728 4096]].

(** The state the worked example ends in when node 1 is exhausted. *)
Definition scenario_rolled_back : State :=
  mkState
    [mkMemorySpec 8192 0; mkMemorySpec 4096 1; mkMemorySpec 4173 3]
    [SpecRead 0; SpecRead 0; SpecRead 0; SpecWrite 0; SpecRead 0;
     SpecRead 1; SpecRead 1; SpecRead 1; SpecWrite 1; SpecRead 1;
     SpecRead 2; SpecWrite 2;
     SpecRead 0; SpecRead 0; SpecRead 0; SpecRead 0;
     SpecRead 1; SpecRead 1]
    [EvVirtualAllocExNuma 0 16384 8192 4 0 65536;
     EvVirtualFreeEx 65536 0 32768;
     EvVirtualAllocExNuma 65536 8192 12288 4 0 65536;
     EvVirtualAllocExNuma 73728 4096 12288 4 1 0;
     EvVirtualFreeEx 65536 0 32768].

(** The same two requests with nothing addressable after the array. *)
Definition scenario_alone : State :=
  initial [mkMemorySpec 10000 0; mkMemorySpec 5000 1].

(** Two requests; the node of the second does not exist. *)
Definition unresolved_second : State :=
  initial [mkMemorySpec 10000 0; mkMemorySpec 5000 7].

(** A request that ends less than one unit below [2^64], followed by the
    object that lies after the one-element array. *)
Definition near_top : State :=
  initial [mkMemorySpec (2 ^ 64 - 2049) 0; mkMemorySpec 0 0].

(** ** Vocabulary of the further properties *)

(** The element of the array an access goes to. *)
Definition access_index (a : Access) : nat :=
  match a with
  | SpecRead i => i
  | SpecWrite i => i
  end.

(** The system granted the request. *)
Definition is_grant (ev : Event) : bool :=
  match ev with
  | EvVirtualAllocExNuma _ _ _ _ _ result => negb (result =? NULL)
  | _ => false
  end.

Definition is_release (ev : Event) : bool :=
  match ev with
  | EvVirtualFreeEx _ _ _ => true
  | _ => false
  end.

Definition is_submit (ev : Event) : bool :=
  match ev with
  | EvPointerMapSubmit _ _ => true
  | _ => false
  end.

(** Number of the events of [l] that satisfy [f]. *)
Fixpoint count_events (f : Event -> bool) (l : list Event) : nat :=
  match l with
  | [] => 0
  | ev :: rest => (if f ev then 1 else 0) + count_events f rest
  end.

(** The call is one of the three forms the file uses: a request for
    read-write memory without large pages, a release of a whole region
    ([dwSize] 0, [MEM_RELEASE]), or a submission to the pointer map. *)
Definition plain_call (ev : Event) : bool :=
  match ev with
  | EvVirtualAllocExNuma _ _ flAllocationType flProtect _ _ =>
      (Z.land flAllocationType MEM_LARGE_PAGES =? 0)
      && (flProtect =? PAGE_READWRITE)
  | EvVirtualFreeEx _ dwSize dwFreeType =>
      (dwSize =? 0) && (dwFreeType =? MEM_RELEASE)
  | EvPointerMapSubmit _ _ => true
  end.

(** Two requests below half of a 4096-byte unit. *)
Definition tiny_requests : State :=
  initial [mkMemorySpec 100 0; mkMemorySpec 2047 1].

(** Two requests that are multiples of a 4096-byte unit. *)
Definition rounded_requests : State :=
  initial [mkMemorySpec 8192 0; mkMemorySpec 4096 1].

(** * Proofs *)

(** ** Rounding *)

Lemma size_t_small z : 0 <= z < SIZE_MODULUS -> size_t z = z.
Proof. intros H. unfold size_t. now apply Z.mod_small. Qed.

Lemma size_t_range z : 0 <= size_t z < SIZE_MODULUS.
Proof. unfold size_t. apply Z.mod_pos_bound. reflexivity. Qed.

Lemma quotient_remainder_unique u q r s :
  0 < u -> s = u * q + r -> 0 <= r < u -> q = s / u /\ r = s mod u.
Proof.
  intros Hu Hs Hr. split.
  - apply (Z.div_unique s u q r); [left; exact Hr | exact Hs].
  - apply (Z.mod_unique s u q r); [left; exact Hr | exact Hs].
Qed.

Lemma round_unfold P s large :
  let u := siloWindowsGetAllocationUnitSize P large in
  0 < u ->
  siloWindowsRoundRequestedAllocationSize P s large =
  Some (size_t (if u / 2 <=? s mod u then u * (s / u + 1) else u * (s / u))).
Proof.
  intros u Hu. unfold siloWindowsRoundRequestedAllocationSize. fold u.
  destruct (Z.eqb_spec u 0) as [E|_]; [lia|].
  rewrite Z.geb_leb. now destruct (u / 2 <=? s mod u).
Qed.

Lemma nearest_up u q r :
  0 < u -> Z.even u = true -> 0 <= r < u -> u / 2 <= r ->
  nearest_multiple_ties_up u (u * q + r) (u * (q + 1)).
Proof.
  intros Hu He Hr Hhalf. split; [now exists (q + 1)|].
  destruct (Z.even_spec u) as [[h Hh] _]; [exact He|].
  assert (Hdiv : u / 2 = h) by (subst u; now rewrite Z.mul_comm, Z.div_mul).
  intros k. destruct (Z_le_gt_dec k q) as [Hk|Hk].
  - assert (u * k <= u * q) by (apply Z.mul_le_mono_nonneg_l; lia). lia.
  - assert (u * (q + 1) <= u * k) by (apply Z.mul_le_mono_nonneg_l; lia). lia.
Qed.

Lemma nearest_down u q r :
  0 < u -> Z.even u = true -> 0 <= r < u -> r < u / 2 ->
  nearest_multiple_ties_up u (u * q + r) (u * q).
Proof.
  intros Hu He Hr Hhalf. split; [now exists q|].
  destruct (Z.even_spec u) as [[h Hh] _]; [exact He|].
  assert (Hdiv : u / 2 = h) by (subst u; now rewrite Z.mul_comm, Z.div_mul).
  intros k. destruct (Z_le_gt_dec k q) as [Hk|Hk].
  - assert (u * k <= u * q) by (apply Z.mul_le_mono_nonneg_l; lia). lia.
  - assert (u * (q + 1) <= u * k) by (apply Z.mul_le_mono_nonneg_l; lia). lia.
Qed.

(** C3, as amended: for a positive even allocation unit and a size whose
    rounded-up multiple still fits in [size_t], the rounding function returns
    a multiple of the unit, the nearest one with ties rounding up, namely
    [u*(q+1)] when [r >= u/2] and [u*q] otherwise, and zero when [q = 0] and
    [r < u/2]. *)
Theorem round_nearest_when_representable (P : Platform) (s : Z) (large : bool) :
  let u := siloWindowsGetAllocationUnitSize P large in
  0 < u -> Z.even u = true -> 0 <= s < SIZE_MODULUS ->
  (u / 2 <= s mod u -> u * (s / u + 1) < SIZE_MODULUS) ->
  rounds_to_nearest P s large.
Proof.
  intros u Hu He Hs Hfit q r Hq Hr. fold u in Hq, Hr.
  destruct (quotient_remainder_unique u q r s Hu Hq Hr) as [Eq Er].
  rewrite <- Eq, <- Er in Hfit.
  assert (Hq0 : 0 <= q) by (rewrite Eq; apply Z.div_pos; lia).
  assert (Huq : 0 <= u * q) by (apply Z.mul_nonneg_nonneg; lia).
  unfold u. rewrite round_unfold by exact Hu. fold u. rewrite <- Eq, <- Er.
  destruct (Z.leb_spec (u / 2) r) as [Hup|Hdown].
  - exists (u * (q + 1)). rewrite size_t_small by lia.
    split; [reflexivity|]. split.
    { rewrite Z.mul_comm. apply Z_mod_mult. }
    split; [subst s; now apply nearest_up|].
    split; [reflexivity|]. lia.
  - exists (u * q). rewrite size_t_small by lia.
    split; [reflexivity|]. split.
    { rewrite Z.mul_comm. apply Z_mod_mult. }
    split; [subst s; now apply nearest_down|].
    split; [reflexivity|]. intros _ ->. lia.
Qed.

Lemma round_nearest_when_representable_witness :
  rounds_to_nearest unit4096 6144 false.
Proof.
  apply (round_nearest_when_representable unit4096 6144 false);
    vm_compute; try reflexivity; try (split; congruence); congruence.
Defined.

(** C3 fails at the top of the range, where the product [u*(q+1)] wraps
    around (the size [2^64 - 1] is rounded to 0 under a 4096-byte unit), and
    for an odd unit, where a remainder of [(u-1)/2] is rounded up (the size 1
    is rounded to 3 under a 3-byte unit). *)
Lemma round_not_nearest_at_top_or_odd_unit :
  ~ rounds_to_nearest unit4096 (2 ^ 64 - 1) false /\
  ~ rounds_to_nearest unit3 1 false.
Proof.
  split; intros H.
  - destruct (H (2 ^ 52 - 1) 4095) as (res & Hres & _ & _ & Hval & _).
    + vm_compute. reflexivity.
    + vm_compute. split; congruence.
    + vm_compute in Hres. injection Hres as <-.
      vm_compute in Hval. discriminate.
  - destruct (H 0 1) as (res & Hres & _ & [_ Hnear] & _).
    + reflexivity.
    + vm_compute. split; congruence.
    + vm_compute in Hres. injection Hres as <-.
      destruct (Hnear 0) as [Hle _]. vm_compute in Hle. now apply Hle.
Qed.

(** ** Reasoning about the monad *)

Lemma bind_Returned {A B} (m : M A) (f : A -> M B) s b s2 :
  bind m f s = Returned b s2 ->
  exists a s1, m s = Returned a s1 /\ f a s1 = Returned b s2.
Proof.
  unfold bind. destruct (m s) as [a s1| |]; try discriminate. eauto.
Qed.

Lemma ret_Returned {A} (a b : A) s s' :
  ret a s = Returned b s' -> b = a /\ s' = s.
Proof. unfold ret. intros H. injection H as <- <-. auto. Qed.

Lemma log_event_Returned e s u s' :
  log_event e s = Returned u s' ->
  spec_mem s' = spec_mem s /\ trace s' = trace s ++ [e].
Proof. unfold log_event. intros H. injection H as _ <-. auto. Qed.

Lemma size_t_add_l a b : size_t (size_t a + b) = size_t (a + b).
Proof. unfold size_t. apply Zplus_mod_idemp_l. Qed.

Ltac bind_step H :=
  let a := fresh "a" in
  let s := fresh "s" in
  let H1 := fresh "Hstep" in
  apply bind_Returned in H as (a & s & H1 & H).

Section Loops.

Variable P : Platform.

Local Abbreviation topo := (topoGetNUMANodeOSIndex P).

(** *** The first loop *)

Lemma validate_loop_unaddressable n i tr ta s :
  spec_mem s !! i = None -> validate_loop P (S n) i tr ta s = Undefined.
Proof. intros H. cbn. unfold bind, read_numaNode. now rewrite H. Qed.

Lemma validate_loop_step n i tr ta s e :
  spec_mem s !! i = Some e ->
  validate_loop P (S n) i tr ta s =
  if 0 >? topo (spec_numaNode e)
  then Returned None
         (mkState (spec_mem s) (accesses s ++ [SpecRead i]) (trace s))
  else
    match siloWindowsRoundRequestedAllocationSize P (spec_size e) false with
    | None => Undefined
    | Some rounded =>
        validate_loop P n (S i)
          (size_t (tr + spec_size e)) (size_t (ta + rounded))
          (mkState (<[i := mkMemorySpec rounded (spec_numaNode e)]> (spec_mem s))
                   (((((accesses s ++ [SpecRead i]) ++ [SpecRead i])
                        ++ [SpecRead i]) ++ [SpecWrite i]) ++ [SpecRead i])
                   (trace s))
    end.
Proof.
  intros He. pose proof (lookup_lt_Some _ _ _ He) as Hlt.
  cbn [validate_loop]. unfold bind at 1. unfold read_numaNode. rewrite He.
  destruct (0 >? topo (spec_numaNode e)); [reflexivity|].
  unfold bind, read_size, call_round, write_size, ret, undefined; cbn.
  repeat (rewrite He; cbn).
  destruct (siloWindowsRoundRequestedAllocationSize P (spec_size e) false)
    as [rounded|]; [|reflexivity].
  cbn. rewrite He; cbn.
  rewrite list_lookup_insert_eq by exact Hlt. reflexivity.
Qed.

Lemma validated_nil mem i : validated P mem mem i i.
Proof.
  split; [reflexivity|]. split; [intros j Hj; lia | reflexivity].
Qed.

Lemma validated_cons mem mem' i k e rounded :
  mem !! i = Some e ->
  siloWindowsRoundRequestedAllocationSize P (spec_size e) false = Some rounded ->
  0 <= topo (spec_numaNode e) ->
  (S i <= k)%nat ->
  validated P (<[i := mkMemorySpec rounded (spec_numaNode e)]> mem) mem' (S i) k ->
  validated P mem mem' i k.
Proof.
  intros He Hr Hnode Hk (Hlen & Hin & Hout).
  pose proof (lookup_lt_Some _ _ _ He) as Hlt.
  split; [now rewrite Hlen, length_insert|]. split.
  - intros j Hj. destruct (decide (j = i)) as [->|Hne].
    + exists e, (mkMemorySpec rounded (spec_numaNode e)).
      split; [exact He|]. split.
      * rewrite Hout by lia. now apply list_lookup_insert_eq.
      * split; [split; [reflexivity | exact Hr] | exact Hnode].
    + destruct (Hin j) as (e1 & e1' & H1 & H2 & H3 & H4); [lia|].
      rewrite list_lookup_insert_ne in H1 by congruence. eauto 8.
  - intros j Hj. rewrite Hout by lia.
    apply list_lookup_insert_ne. lia.
Qed.

Lemma validate_loop_Returned n : forall i tr ta s out s',
  validate_loop P n i tr ta s = Returned out s' ->
  trace s' = trace s /\
  exists k, (i <= k <= i + n)%nat /\
    validated P (spec_mem s) (spec_mem s') i k /\
    match out with
    | Some _ => k = (i + n)%nat
    | None => (k < i + n)%nat /\
              exists e, spec_mem s !! k = Some e /\ topo (spec_numaNode e) < 0
    end.
Proof.
  induction n as [|n IH]; intros i tr ta s out s' H.
  - cbn in H. apply ret_Returned in H as [-> ->].
    split; [reflexivity|]. exists i.
    split; [lia|]. split; [apply validated_nil | lia].
  - destruct (spec_mem s !! i) as [e|] eqn:He;
      [|now rewrite validate_loop_unaddressable in H].
    rewrite (validate_loop_step _ _ _ _ _ _ He) in H.
    destruct (Z.gtb_spec 0 (topo (spec_numaNode e))) as [Hbad|Hok].
    + injection H as <- <-. cbn. split; [reflexivity|]. exists i.
      split; [lia|]. split; [apply validated_nil|].
      split; [lia|]. exists e. split; [exact He | lia].
    + destruct (siloWindowsRoundRequestedAllocationSize P (spec_size e) false)
        as [rounded|] eqn:Hr; [|discriminate].
      apply IH in H as (Htr & k & Hk & Hval & Hout). cbn in Htr, Hval, Hout.
      split; [exact Htr|]. exists k. split; [lia|]. split.
      * eapply validated_cons; eauto. lia.
      * destruct out; [lia|].
        destruct Hout as (Hlt & e1 & He1 & Hneg). split; [lia|].
        exists e1. split; [|exact Hneg].
        rewrite list_lookup_insert_ne in He1 by lia. exact He1.
Qed.

Lemma round_defined z :
  siloWindowsGetAllocationUnitSize P false <> 0 ->
  exists r, siloWindowsRoundRequestedAllocationSize P z false = Some r.
Proof.
  intros Hu. unfold siloWindowsRoundRequestedAllocationSize.
  destruct (Z.eqb_spec (siloWindowsGetAllocationUnitSize P false) 0); [easy|].
  destruct (_ >=? _); eauto.
Qed.

(** The first loop returns when the array is addressable and the unit is
    not zero. *)
Lemma validate_loop_total n : forall i tr ta s,
  (i + n <= length (spec_mem s))%nat ->
  siloWindowsGetAllocationUnitSize P false <> 0 ->
  exists out s', validate_loop P n i tr ta s = Returned out s'.
Proof.
  induction n as [|n IH]; intros i tr ta s Hlen Hu.
  - cbn. unfold ret. eauto.
  - destruct (lookup_lt_is_Some_2 (spec_mem s) i) as [e He]; [lia|].
    rewrite (validate_loop_step _ _ _ _ _ _ He).
    destruct (0 >? topo (spec_numaNode e)); [eauto|].
    destruct (round_defined (spec_size e) Hu) as [r ->].
    apply IH; [|exact Hu]. cbn. rewrite length_insert. lia.
Qed.

Lemma validate_loop_totals n : forall i tr ta s tr' ta' s',
  validate_loop P n i tr ta s = Returned (Some (tr', ta')) s' ->
  size_t tr' = size_t (tr + total_size (take n (drop i (spec_mem s)))) /\
  size_t ta' = size_t (ta + total_size (take n (drop i (spec_mem s')))).
Proof.
  induction n as [|n IH]; intros i tr ta s tr' ta' s' H.
  - cbn in H. apply ret_Returned in H as [E ->]. injection E as -> ->.
    cbn. rewrite !Z.add_0_r. auto.
  - destruct (spec_mem s !! i) as [e|] eqn:He;
      [|now rewrite validate_loop_unaddressable in H].
    rewrite (validate_loop_step _ _ _ _ _ _ He) in H.
    destruct (0 >? topo (spec_numaNode e)); [discriminate|].
    destruct (siloWindowsRoundRequestedAllocationSize P (spec_size e) false)
      as [rounded|] eqn:Hr; [|discriminate].
    pose proof (lookup_lt_Some _ _ _ He) as Hlt.
    pose proof (validate_loop_Returned _ _ _ _ _ _ _ H) as (_ & k & _ & Hval & _).
    destruct Hval as (_ & _ & Hout). cbn in Hout.
    specialize (Hout i ltac:(lia)).
    rewrite list_lookup_insert_eq in Hout by exact Hlt.
    apply IH in H as (Htr & Hta). cbn in Htr, Hta.
    rewrite drop_insert_lt in Htr by lia.
    rewrite (drop_S _ _ _ He), (drop_S _ _ _ Hout). cbn.
    unfold total_size in *. cbn.
    rewrite size_t_add_l in Htr, Hta. rewrite Htr, Hta.
    unfold Zsum in *. split; f_equal; lia.
Qed.

Lemma validate_loop_range n : forall i tr ta s tr' ta' s',
  validate_loop P n i tr ta s = Returned (Some (tr', ta')) s' ->
  is_size_t tr -> is_size_t ta -> is_size_t tr' /\ is_size_t ta'.
Proof.
  induction n as [|n IH]; intros i tr ta s tr' ta' s' H Htr Hta.
  - cbn in H. apply ret_Returned in H as [E ->]. injection E as -> ->. auto.
  - destruct (spec_mem s !! i) as [e|] eqn:He;
      [|now rewrite validate_loop_unaddressable in H].
    rewrite (validate_loop_step _ _ _ _ _ _ He) in H.
    destruct (0 >? topo (spec_numaNode e)); [discriminate|].
    destruct (siloWindowsRoundRequestedAllocationSize P (spec_size e) false)
      as [rounded|]; [|discriminate].
    apply IH in H; [exact H | apply size_t_range | apply size_t_range].
Qed.

(** *** The padding loop *)

Section Padding.

Variables (u : Z) (count : nat).

Lemma padding_loop_done fuel tr ta s :
  ~ ta < tr -> padding_loop fuel u count tr ta s = Returned ta s.
Proof.
  intros H. destruct fuel; cbn;
    (destruct (Z.ltb_spec ta tr); [lia | reflexivity]).
Qed.

Lemma padding_loop_exhausted tr ta s :
  ta < tr -> padding_loop 0 u count tr ta s = OutOfFuel.
Proof. intros H. cbn. destruct (Z.ltb_spec ta tr); [reflexivity | lia]. Qed.

Lemma padding_loop_unaddressable fuel tr ta s :
  ta < tr -> spec_mem s !! count = None ->
  padding_loop (S fuel) u count tr ta s = Undefined.
Proof.
  intros H Hm. cbn. destruct (Z.ltb_spec ta tr); [|lia].
  unfold bind, read_size. now rewrite Hm.
Qed.

Lemma padding_loop_step fuel tr ta s e :
  ta < tr -> spec_mem s !! count = Some e ->
  padding_loop (S fuel) u count tr ta s =
  padding_loop fuel u count tr (size_t (ta + u))
    (mkState
       (<[count := mkMemorySpec (size_t (spec_size e + u)) (spec_numaNode e)]>
          (spec_mem s))
       ((accesses s ++ [SpecRead count]) ++ [SpecWrite count])
       (trace s)).
Proof.
  intros H Hm. cbn [padding_loop]. destruct (Z.ltb_spec ta tr); [|lia].
  unfold bind, read_size, write_size. rewrite Hm. cbn. now rewrite Hm.
Qed.

Lemma padding_loop_Returned fuel : forall tr ta s ta' s',
  padding_loop fuel u count tr ta s = Returned ta' s' ->
  trace s' = trace s /\
  length (spec_mem s') = length (spec_mem s) /\
  (forall j, j <> count -> spec_mem s' !! j = spec_mem s !! j) /\
  tr <= ta' /\
  (is_size_t ta -> is_size_t ta') /\
  exists k : nat, size_t ta' = size_t (ta + Z.of_nat k * u).
Proof.
  induction fuel as [|fuel IH]; intros tr ta s ta' s' H.
  - destruct (Z_lt_ge_dec ta tr) as [Hlt|Hge].
    + now rewrite padding_loop_exhausted in H.
    + rewrite padding_loop_done in H by lia. injection H as <- <-.
      do 3 (split; [reflexivity|]). split; [lia|]. split; [tauto|].
      exists 0%nat. f_equal. lia.
  - destruct (Z_lt_ge_dec ta tr) as [Hlt|Hge].
    + destruct (spec_mem s !! count) as [e|] eqn:He;
        [|now rewrite padding_loop_unaddressable in H].
      rewrite (padding_loop_step _ _ _ _ _ Hlt He) in H.
      apply IH in H as (Htr & Hlen & Hother & Hcov & Hrange & k & Hk).
      cbn in Htr, Hlen, Hother. rewrite length_insert in Hlen.
      split; [exact Htr|]. split; [exact Hlen|]. split.
      { intros j Hj. rewrite Hother by exact Hj.
        apply list_lookup_insert_ne. congruence. }
      split; [exact Hcov|]. split.
      { intros _. apply Hrange, size_t_range. }
      exists (S k). rewrite Hk, size_t_add_l. f_equal. lia.
    + rewrite padding_loop_done in H by lia. injection H as <- <-.
      do 3 (split; [reflexivity|]). split; [lia|]. split; [tauto|].
      exists 0%nat. f_equal. lia.
Qed.

(** Enough fuel: the running total cannot wrap around before it reaches
    [tr] when [tr + u] does not exceed [2^64]. *)
Lemma padding_loop_enough_fuel fuel : forall tr ta s,
  0 < u -> 0 <= ta -> tr + u <= SIZE_MODULUS ->
  tr - ta <= Z.of_nat fuel * u ->
  match padding_loop fuel u count tr ta s with
  | Returned ta' _ => tr <= ta'
  | Undefined => (length (spec_mem s) <= count)%nat
  | OutOfFuel => False
  end.
Proof.
  induction fuel as [|fuel IH]; intros tr ta s Hu Hta Htop Hfuel.
  - rewrite padding_loop_done by lia. lia.
  - destruct (Z_lt_ge_dec ta tr) as [Hlt|Hge];
      [|rewrite padding_loop_done by lia; lia].
    destruct (spec_mem s !! count) as [e|] eqn:He.
    + rewrite (padding_loop_step _ _ _ _ _ Hlt He).
      rewrite size_t_small by (unfold SIZE_MODULUS in *; lia).
      match goal with
      | |- context [padding_loop fuel u count tr (ta + u) ?s1] =>
          specialize (IH tr (ta + u) s1)
      end.
      destruct (padding_loop fuel u count tr (ta + u) _); cbn in IH.
      * apply IH; lia.
      * rewrite length_insert in IH. apply IH; lia.
      * apply IH; lia.
    + rewrite padding_loop_unaddressable by assumption.
      now apply lookup_ge_None.
Qed.

End Padding.

(** *** The commit loop *)

Lemma commit_loop_unaddressable n i buf specs s :
  spec_mem s !! i = None -> commit_loop P (S n) i buf specs s = Undefined.
Proof. intros H. cbn. unfold bind, read_size. now rewrite H. Qed.

Lemma commit_loop_step n i buf specs s e :
  spec_mem s !! i = Some e ->
  commit_loop P (S n) i buf specs s =
  let result :=
    VirtualAllocExNuma P (trace s) buf (spec_size e)
      (Z.lor MEM_RESERVE MEM_COMMIT) PAGE_READWRITE
      (DWORD (topo (spec_numaNode e))) in
  if NULL =? result
  then Returned (false, i, buf, specs)
         (mkState (spec_mem s)
                  ((accesses s ++ [SpecRead i]) ++ [SpecRead i])
                  (trace s ++ [commit_event P e buf result]))
  else commit_loop P n (S i) (size_t (buf + spec_size e))
         (specs ++ [mkAllocationSpec buf (spec_size e)])
         (mkState (spec_mem s)
                  ((((accesses s ++ [SpecRead i]) ++ [SpecRead i])
                      ++ [SpecRead i]) ++ [SpecRead i])
                  (trace s ++ [commit_event P e buf result])).
Proof.
  intros He. cbn [commit_loop].
  unfold bind, read_size, read_numaNode, siloWindowsMemoryAllocAtNUMA, ret.
  cbn. rewrite He. cbn. rewrite He. cbn.
  change (Z.lor (Z.lor MEM_RESERVE MEM_COMMIT) 0)
    with (Z.lor MEM_RESERVE MEM_COMMIT).
  destruct (VirtualAllocExNuma P (trace s) buf (spec_size e)
              (Z.lor MEM_RESERVE MEM_COMMIT) PAGE_READWRITE
              (DWORD (topo (spec_numaNode e))));
    [reflexivity| |]; cbn; rewrite He; cbn; rewrite He; reflexivity.
Qed.

Lemma commit_loop_Returned n : forall i buf specs s ok k buf' specs' s',
  commit_loop P n i buf specs s = Returned (ok, k, buf', specs') s' ->
  spec_mem s' = spec_mem s /\
  exists pieces commits,
    specs' = specs ++ pieces /\ k = (i + length pieces)%nat /\
    length commits = length pieces /\
    chained buf pieces buf' /\
    (forall j p, pieces !! j = Some p ->
       exists ev, commits !! j = Some ev /\
                  committed_piece P (spec_mem s) (i + j) p ev) /\
    if ok
    then length pieces = n /\ trace s' = trace s ++ commits
    else (length pieces < n)%nat /\
         exists e, spec_mem s !! k = Some e /\
           trace s' = trace s ++ commits ++ [commit_event P e buf' NULL].
Proof.
  induction n as [|n IH]; intros i buf specs s ok k buf' specs' s' H.
  - cbn in H. apply ret_Returned in H as [E ->]. injection E as -> -> -> ->.
    split; [reflexivity|]. exists [], []. cbn.
    rewrite !app_nil_r. repeat split; auto. intros j p Hj. discriminate.
  - destruct (spec_mem s !! i) as [e|] eqn:He;
      [|now rewrite commit_loop_unaddressable in H].
    rewrite (commit_loop_step _ _ _ _ _ _ He) in H. cbn zeta in H.
    destruct (Z.eqb_spec NULL
                (VirtualAllocExNuma P (trace s) buf (spec_size e)
                   (Z.lor MEM_RESERVE MEM_COMMIT) PAGE_READWRITE
                   (DWORD (topo (spec_numaNode e))))) as [Hnull|Hres].
    + injection H as <- <- <- <- <-. cbn.
      split; [reflexivity|]. exists [], []. cbn.
      rewrite app_nil_r, Nat.add_0_r. repeat split; auto; try lia.
      * intros j p Hj. discriminate.
      * exists e. rewrite <- Hnull. auto.
    + apply IH in H as (Hmem & pieces & commits & Hspecs & Hk & Hlen & Hch
                        & Hpieces & Hexit).
      cbn in Hmem, Hpieces, Hexit.
      split; [exact Hmem|].
      exists (mkAllocationSpec buf (spec_size e) :: pieces),
             (commit_event P e buf
                (VirtualAllocExNuma P (trace s) buf (spec_size e)
                   (Z.lor MEM_RESERVE MEM_COMMIT) PAGE_READWRITE
                   (DWORD (topo (spec_numaNode e)))) :: commits).
      split; [now rewrite Hspecs, <- app_assoc|].
      split; [cbn; lia|]. split; [cbn; lia|].
      split; [cbn; auto|]. split.
      * intros [|j] p Hj; cbn in Hj.
        -- injection Hj as <-. eexists. split; [reflexivity|].
           exists e. eexists. rewrite Nat.add_0_r. cbn.
           repeat split; auto; congruence.
        -- destruct (Hpieces j p Hj) as (ev & Hev & Hc).
           exists ev. split; [exact Hev|].
           now replace (i + S j)%nat with (S i + j)%nat by lia.
      * destruct ok.
        -- destruct Hexit as [Hn Htr]. split; [cbn; lia|].
           now rewrite Htr, <- app_assoc.
        -- destruct Hexit as (Hn & e1 & He1 & Htr). split; [cbn; lia|].
           exists e1. split; [exact He1|]. now rewrite Htr, <- app_assoc.
Qed.

(** *** The rollback loop *)

Lemma rollback_loop_Returned n : forall i specs s u s',
  rollback_loop n i specs s = Returned u s' ->
  spec_mem s' = spec_mem s /\
  trace s' = trace s ++ map release_event (take n (drop i specs)).
Proof.
  induction n as [|n IH]; intros i specs s u s' H.
  - cbn in H. apply ret_Returned in H as [_ ->]. cbn.
    now rewrite app_nil_r.
  - cbn in H. destruct (specs !! i) as [p|] eqn:Hp; [|discriminate].
    bind_step H. apply log_event_Returned in Hstep as [Hm Ht].
    apply IH in H as [Hm' Ht'].
    rewrite (drop_S _ _ _ Hp). cbn.
    split; [congruence|]. rewrite Ht', Ht, <- app_assoc. reflexivity.
Qed.

(** *** The whole function *)

Lemma probe_Returned total s result s' :
  siloWindowsMemoryAllocAtNUMA P total 0 NULL false false s
    = Returned result s' ->
  spec_mem s' = spec_mem s /\
  trace s' = trace s ++ [probe_event total result].
Proof.
  unfold siloWindowsMemoryAllocAtNUMA. intros H. injection H as <- <-.
  cbn. auto.
Qed.

Lemma committed_piece_ext mem mem' j p ev :
  mem' !! j = mem !! j -> committed_piece P mem j p ev -> committed_piece P mem' j p ev.
Proof.
  intros E (e & result & H1 & H2). exists e, result. now rewrite E.
Qed.

Lemma siloMultinodeArrayAlloc_Returned fuel count s r s' :
  siloMultinodeArrayAlloc P fuel count s = Returned r s' ->
  run_shape P count s r s'.
Proof.
  intros H. unfold siloMultinodeArrayAlloc in H.
  bind_step H. rename a into totals, s0 into s1, Hstep into Hval.
  pose proof (validate_loop_Returned _ _ _ _ _ _ _ Hval)
    as (Htr1 & k1 & _ & Hvalid & Hout).
  destruct totals as [[tr ta]|].
  2:{ apply ret_Returned in H as [-> ->]. left. auto. }
  cbn in Hout. subst k1.
  pose proof (validate_loop_totals _ _ _ _ _ _ _ _ Hval) as [Htot_r Htot_a].
  pose proof (validate_loop_range _ _ _ _ _ _ _ _ Hval) as [Hr_tr Hr_ta];
    [unfold is_size_t, SIZE_MODULUS; lia..|].
  rewrite drop_0, Z.add_0_l in Htot_r, Htot_a.
  rewrite size_t_small in Htot_r, Htot_a by assumption.
  destruct (0 =? ta) eqn:Hzero.
  { apply ret_Returned in H as [-> ->]. left. auto. }
  bind_step H. rename a into total, s0 into s2, Hstep into Hpad.
  apply padding_loop_Returned in Hpad
    as (Htr2 & _ & Hother & Hcov & Hrange & k & Hk).
  rewrite size_t_small in Hk by (apply Hrange, Hr_ta).
  bind_step H. rename a into base, s0 into s3, Hstep into Hprobe.
  apply probe_Returned in Hprobe as [Hm3 Htr3].
  right. exists (spec_mem s1), total.
  split; [exact Hvalid|]. split.
  { exists k. rewrite Hk, Htot_a, size_t_add_l. reflexivity. }
  split; [rewrite <- Htot_r; exact Hcov|].
  destruct (Z.eqb_spec NULL base) as [Hnull|Hbase].
  { apply ret_Returned in H as [-> ->]. split.
    - intros j Hj. rewrite Hm3. now apply Hother.
    - left. split; [reflexivity|]. rewrite Htr3, Htr2, Htr1, <- Hnull.
      reflexivity. }
  assert (Hbase' : base <> NULL) by congruence.
  bind_step H. rename s0 into s4, Hstep into Hfree.
  apply log_event_Returned in Hfree as [Hm4 Htr4].
  bind_step H. destruct a0 as [[[ok numAllocated] stop] specs].
  rename s0 into s5, Hstep into Hcommit.
  apply commit_loop_Returned in Hcommit
    as (Hm5 & pieces & commits & Hspecs & Hnum & Hlen & Hch & Hpieces & Hexit).
  cbn in Hspecs, Hnum. subst specs numAllocated.
  assert (Hpieces1 : forall j p, pieces !! j = Some p ->
            exists ev, commits !! j = Some ev /\
                       committed_piece P (spec_mem s1) j p ev).
  { intros j p Hj. destruct (Hpieces j p Hj) as (ev & Hev & Hc).
    exists ev. split; [exact Hev|]. cbn in Hc.
    apply committed_piece_ext with (mem := spec_mem s4); [|exact Hc].
    rewrite Hm4, Hm3. symmetry. apply Hother.
    pose proof (lookup_lt_Some _ _ _ Hj) as Hlt.
    destruct ok; destruct Hexit as [Hn _]; lia. }
  assert (Htrace4 : trace s4 = trace s ++ placement_prefix total base []).
  { rewrite Htr4, Htr3, Htr2, Htr1. unfold placement_prefix.
    rewrite app_nil_r, <- app_assoc. reflexivity. }
  destruct ok; cbn [negb] in H.
  - destruct Hexit as [Hn Htr5].
    destruct (pieces !! 0%nat) as [first|] eqn:Hfirst; [|discriminate].
    bind_step H. rename s0 into s6, Hstep into Hsubmit.
    apply log_event_Returned in Hsubmit as [Hm6 Htr6].
    apply ret_Returned in H as [-> ->]. split.
    { intros j Hj. rewrite Hm6, Hm5, Hm4, Hm3. now apply Hother. }
    right. exists base, pieces, commits, stop.
    do 4 (split; [assumption|]). right.
    destruct pieces as [|p0 rest]; [discriminate|].
    cbn in Hfirst. injection Hfirst as <-. destruct Hch as [Hp0 _].
    split; [exact Hp0|]. split; [exact Hn|].
    split; [cbn in Hn; lia|].
    rewrite Htr6, Htr5, Htrace4. unfold placement_prefix.
    rewrite ?Nat.add_0_l, Hn, app_nil_r, <- !app_assoc. reflexivity.
  - destruct Hexit as (Hn & e & He & Htr5).
    bind_step H. rename s0 into s6, Hstep into Hroll.
    apply rollback_loop_Returned in Hroll as [Hm6 Htr6].
    apply ret_Returned in H as [-> ->]. split.
    { intros j Hj. rewrite Hm6, Hm5, Hm4, Hm3. now apply Hother. }
    right. exists base, pieces, commits, stop.
    do 4 (split; [assumption|]). left.
    split; [reflexivity|]. split; [exact Hn|].
    rewrite ?Nat.add_0_l in He, Htr6. rewrite drop_0, take_ge in Htr6 by lia.
    exists e. split.
    { rewrite <- He, Hm4, Hm3. symmetry. apply Hother. lia. }
    rewrite Htr6, Htr5, Htrace4. unfold placement_prefix.
    rewrite app_nil_r, <- !app_assoc. reflexivity.
Qed.

(** *** Successful calls *)

Lemma committed_piece_request mem0 mem1 count j p ev :
  validated P mem0 mem1 0 count -> (j < count)%nat ->
  committed_piece P mem1 j p ev ->
  exists e0, mem0 !! j = Some e0 /\ commits_request P e0 p ev.
Proof.
  intros (_ & Hin & _) Hj (e & result & He & Hsize & Hev & Hres).
  destruct (Hin j) as (e0 & e1 & H0 & H1 & [Hnode Hround] & Htopo); [lia|].
  rewrite He in H1. injection H1 as <-.
  exists e0. split; [exact H0|]. split; [now rewrite Hsize|].
  split; [exact Htopo|]. exists result. split; [exact Hres|].
  rewrite Hev. unfold commit_event. now rewrite Hnode, Hsize.
Qed.

Lemma chained_first base pieces stop p0 :
  chained base pieces stop -> pieces !! 0%nat = Some p0 -> alloc_ptr p0 = base.
Proof.
  destruct pieces as [|p rest]; [discriminate|].
  intros [Hp _] H. cbn in H. now injection H as <-.
Qed.

Lemma chained_next pieces : forall base stop i p q,
  chained base pieces stop ->
  pieces !! i = Some p -> pieces !! S i = Some q ->
  size_t (alloc_ptr p + alloc_size p) = alloc_ptr q.
Proof.
  induction pieces as [|p0 rest IH]; intros base stop i p q Hch Hp Hq;
    [discriminate|].
  destruct Hch as [Hp0 Hrest]. destruct i as [|i]; cbn in Hp, Hq.
  - injection Hp as <-. rewrite Hp0.
    symmetry. eapply chained_first; eauto.
  - eapply IH; eauto.
Qed.

Lemma success_shape fuel count s r s' :
  siloMultinodeArrayAlloc P fuel count s = Returned r s' -> r <> NULL ->
  exists total pieces commits stop,
    trace s' = trace s ++ placement_prefix total r commits
                 ++ [EvPointerMapSubmit count pieces] /\
    length pieces = count /\ length commits = count /\
    chained r pieces stop /\
    forall j p, pieces !! j = Some p ->
      exists e0 ev, spec_mem s !! j = Some e0 /\ commits !! j = Some ev /\
                    commits_request P e0 p ev.
Proof.
  intros H Hr. apply siloMultinodeArrayAlloc_Returned in H.
  destruct H as [[H _]|(mem1 & total & Hval & _ & _ & _ & H)]; [contradiction|].
  destruct H as [[H _]|(base & pieces & commits & stop & _ & Hlen & Hch & Hp & H)];
    [contradiction|].
  destruct H as [[H _]|(-> & Hn & _ & Htr)]; [contradiction|].
  exists total, pieces, commits, stop.
  split; [exact Htr|].
  split; [exact Hn|]. split; [lia|]. split; [exact Hch|].
  intros j p Hj. destruct (Hp j p Hj) as (ev & Hev & Hc).
  pose proof (lookup_lt_Some _ _ _ Hj) as Hlt.
  assert (Hjc : (j < count)%nat) by lia.
  destruct (committed_piece_request _ _ _ _ _ _ Hval Hjc Hc)
    as (e0 & H0 & Hreq).
  eauto.
Qed.

End Loops.

(** * The claims *)

Lemma scenario_runs :
  siloMultinodeArrayAlloc unit4096 10 2 scenario = Returned 65536 scenario_final.
Proof. vm_compute. reflexivity. Qed.

Lemma four_nodes_is_DWORD node : four_nodes node < DWORD_MODULUS.
Proof.
  unfold four_nodes, DWORD_MODULUS.
  destruct (Z.leb_spec 0 node), (Z.ltb_spec node 4); cbn; lia.
Qed.

Lemma DWORD_small z : 0 <= z < DWORD_MODULUS -> DWORD z = z.
Proof. intros H. unfold DWORD. now apply Z.mod_small. Qed.

Lemma round_is_size_t P z r :
  siloWindowsRoundRequestedAllocationSize P z false = Some r -> is_size_t r.
Proof.
  unfold siloWindowsRoundRequestedAllocationSize.
  destruct (_ =? 0); [discriminate|].
  destruct (_ >=? _); intros H; injection H as <-; apply size_t_range.
Qed.

(** ** C5: contiguity *)

(** C5.  For every successful call the recorded pieces, one per request, are
    contiguous: each piece begins where the one before it ends (the sum is
    the one the code computes in [size_t]; it is the sum in [Z] whenever the
    piece ends below [2^64]); piece [i] was committed by a successful call at
    exactly its recorded address, with the rounded size of request [i], on
    the node request [i] resolves to; and the returned pointer is the address
    of the first piece. *)
Theorem successful_pieces_are_contiguous
    (P : Platform) (fuel count : nat) (s : State) (r : Z) (s' : State) :
  (forall node, topoGetNUMANodeOSIndex P node < DWORD_MODULUS) ->
  siloMultinodeArrayAlloc P fuel count s = Returned r s' ->
  r <> NULL ->
  exists total pieces commits,
    trace s' = trace s ++ placement_prefix total r commits
                 ++ [EvPointerMapSubmit count pieces] /\
    length pieces = count /\ length commits = count /\
    (forall i p q, pieces !! i = Some p -> pieces !! S i = Some q ->
       size_t (alloc_ptr p + alloc_size p) = alloc_ptr q /\
       (0 <= alloc_ptr p -> alloc_ptr p + alloc_size p < SIZE_MODULUS ->
        alloc_ptr p + alloc_size p = alloc_ptr q)) /\
    (forall i p, pieces !! i = Some p ->
       exists e0 result,
         spec_mem s !! i = Some e0 /\
         siloWindowsRoundRequestedAllocationSize P (spec_size e0) false
           = Some (alloc_size p) /\
         0 <= topoGetNUMANodeOSIndex P (spec_numaNode e0) /\
         result <> NULL /\
         commits !! i =
           Some (EvVirtualAllocExNuma (alloc_ptr p) (alloc_size p)
                   (Z.lor MEM_RESERVE MEM_COMMIT) PAGE_READWRITE
                   (topoGetNUMANodeOSIndex P (spec_numaNode e0)) result)) /\
    exists p0, pieces !! 0%nat = Some p0 /\ alloc_ptr p0 = r.
Proof.
  intros Htopo H Hr.
  pose proof (siloMultinodeArrayAlloc_Returned _ _ _ _ _ _ H) as Hshape.
  destruct (success_shape _ _ _ _ _ _ H Hr)
    as (total & pieces & commits & stop & Htr & Hn & Hc & Hch & Hp).
  exists total, pieces, commits.
  split; [exact Htr|]. split; [exact Hn|]. split; [exact Hc|].
  assert (Hsizes : forall i p, pieces !! i = Some p -> is_size_t (alloc_size p)).
  { intros i p Hi. destruct (Hp i p Hi) as (e0 & ev & _ & _ & Hround & _).
    eapply round_is_size_t; eauto. }
  split; [|split].
  - intros i p q Hi Hq.
    pose proof (chained_next _ _ _ _ _ _ Hch Hi Hq) as Hnext.
    split; [exact Hnext|]. intros Hlow Hhigh.
    rewrite <- Hnext. symmetry. apply size_t_small.
    pose proof (Hsizes i p Hi) as [Hs _]. lia.
  - intros i p Hi.
    destruct (Hp i p Hi) as (e0 & ev & H0 & Hev & Hround & Hnode & result & Hres & ->).
    exists e0, result. rewrite DWORD_small in Hev by (split; [exact Hnode | apply Htopo]).
    auto.
  - destruct pieces as [|p0 rest].
    + destruct Hshape as [[E _]|(mem1 & t & _ & _ & _ & _ & Hshape)]; [contradiction|].
      destruct Hshape as [[E _]|(b & ps & cs & st & _ & _ & _ & _ & Hshape)];
        [contradiction|].
      destruct Hshape as [[E _]|(_ & _ & Hpos & _)]; [contradiction|].
      cbn in Hn. lia.
    + exists p0. split; [reflexivity|]. now destruct Hch.
Qed.

Lemma successful_pieces_are_contiguous_witness :
  exists total pieces commits,
    trace scenario_final = trace scenario ++ placement_prefix total 65536 commits
                 ++ [EvPointerMapSubmit 2 pieces] /\
    length pieces = 2%nat /\ length commits = 2%nat /\
    (forall i p q, pieces !! i = Some p -> pieces !! S i = Some q ->
       size_t (alloc_ptr p + alloc_size p) = alloc_ptr q /\
       (0 <= alloc_ptr p -> alloc_ptr p + alloc_size p < SIZE_MODULUS ->
        alloc_ptr p + alloc_size p = alloc_ptr q)) /\
    (forall i p, pieces !! i = Some p ->
       exists e0 result,
         spec_mem scenario !! i = Some e0 /\
         siloWindowsRoundRequestedAllocationSize unit4096 (spec_size e0) false
           = Some (alloc_size p) /\
         0 <= topoGetNUMANodeOSIndex unit4096 (spec_numaNode e0) /\
         result <> NULL /\
         commits !! i =
           Some (EvVirtualAllocExNuma (alloc_ptr p) (alloc_size p)
                   (Z.lor MEM_RESERVE MEM_COMMIT) PAGE_READWRITE
                   (topoGetNUMANodeOSIndex unit4096 (spec_numaNode e0)) result)) /\
    exists p0, pieces !! 0%nat = Some p0 /\ alloc_ptr p0 = 65536.
Proof.
  apply (successful_pieces_are_contiguous unit4096 10 2 scenario 65536
           scenario_final).
  - exact four_nodes_is_DWORD.
  - vm_compute. reflexivity.
  - discriminate.
Defined.

(** ** C8: submission to the pointer map *)

(** C8.  When all pieces commit (the call returns a pointer other than
    NULL), the last call of the run submits to the pointer map the ordered
    list of [count] pieces, each with the address and the size of the
    successful commit of that piece; the key of that list (the address of its
    first piece) is the pointer returned. *)
Theorem successful_pieces_are_submitted
    (P : Platform) (fuel count : nat) (s : State) (r : Z) (s' : State) :
  siloMultinodeArrayAlloc P fuel count s = Returned r s' ->
  r <> NULL ->
  exists total pieces commits,
    trace s' = trace s ++ placement_prefix total r commits
                 ++ [EvPointerMapSubmit count pieces] /\
    length pieces = count /\ length commits = count /\
    registry_key pieces = Some r /\
    forall i p, pieces !! i = Some p ->
      exists node result,
        result <> NULL /\
        commits !! i =
          Some (EvVirtualAllocExNuma (alloc_ptr p) (alloc_size p)
                  (Z.lor MEM_RESERVE MEM_COMMIT) PAGE_READWRITE node result).
Proof.
  intros H Hr.
  pose proof (siloMultinodeArrayAlloc_Returned _ _ _ _ _ _ H) as Hshape.
  destruct (success_shape _ _ _ _ _ _ H Hr)
    as (total & pieces & commits & stop & Htr & Hn & Hc & Hch & Hp).
  exists total, pieces, commits.
  split; [exact Htr|]. split; [exact Hn|]. split; [exact Hc|]. split.
  - destruct pieces as [|p0 rest].
    + destruct Hshape as [[E _]|(mem1 & t & _ & _ & _ & _ & Hshape)]; [contradiction|].
      destruct Hshape as [[E _]|(b & ps & cs & st & _ & _ & _ & _ & Hshape)];
        [contradiction|].
      destruct Hshape as [[E _]|(_ & _ & Hpos & _)]; [contradiction|].
      cbn in Hn. lia.
    + cbn. f_equal. now destruct Hch.
  - intros i p Hi.
    destruct (Hp i p Hi) as (e0 & ev & _ & Hev & _ & _ & result & Hres & ->).
    eauto.
Qed.

Lemma successful_pieces_are_submitted_witness :
  exists total pieces commits,
    trace scenario_final = trace scenario ++ placement_prefix total 65536 commits
                 ++ [EvPointerMapSubmit 2 pieces] /\
    length pieces = 2%nat /\ length commits = 2%nat /\
    registry_key pieces = Some 65536 /\
    forall i p, pieces !! i = Some p ->
      exists node result,
        result <> NULL /\
        commits !! i =
          Some (EvVirtualAllocExNuma (alloc_ptr p) (alloc_size p)
                  (Z.lor MEM_RESERVE MEM_COMMIT) PAGE_READWRITE node result).
Proof.
  apply (successful_pieces_are_submitted unit4096 10 2 scenario 65536
           scenario_final).
  - vm_compute. reflexivity.
  - discriminate.
Defined.

(** ** C7: the probe reservation *)

(** C7.  In every returning call, whatever precedes a call that commits
    memory starts with the probe, a reservation without commit of the padded
    total at no given address on node 0, followed by its release; and when
    the probe is refused the call returns NULL and does nothing else. *)
Theorem probe_is_released_before_commits
    (P : Platform) (fuel count : nat) (s : State) (r : Z) (s' : State)
    (new : list Event) :
  siloMultinodeArrayAlloc P fuel count s = Returned r s' ->
  trace s' = trace s ++ new ->
  (forall before ev after,
     new = before ++ ev :: after -> commits_memory ev = true ->
     exists total base rest,
       base <> NULL /\ padded_total P count (spec_mem s) total /\
       commits_memory (probe_event total base) = false /\
       before = probe_event total base :: EvVirtualFreeEx base 0 MEM_RELEASE
                  :: rest) /\
  (forall total rest,
     new = probe_event total NULL :: rest -> r = NULL /\ rest = []).
Proof.
  intros H Hnew. apply siloMultinodeArrayAlloc_Returned in H.
  destruct H as [[Hr Htr]|(mem1 & total & Hval & [k Hk] & Hcov & _ & H)].
  { rewrite Htr in Hnew. rewrite <- (app_nil_r (trace s)) in Hnew at 1.
    apply app_inv_head in Hnew. subst new. split.
    - intros [|b before] ev after E; discriminate.
    - intros t rest E. discriminate. }
  assert (Hpad : padded_total P count (spec_mem s) total)
    by (exists mem1, k; auto).
  destruct H as [[Hr Htr]|(base & pieces & commits & stop & Hbase & _ & _ & _ & H)].
  { rewrite Htr in Hnew. apply app_inv_head in Hnew. subst new. split.
    - intros [|b [|b' before]] ev after E; try discriminate.
      injection E as <- _. discriminate.
    - intros t rest E. injection E as _ <-. auto. }
  assert (Hshape : exists rest,
            new = probe_event total base :: EvVirtualFreeEx base 0 MEM_RELEASE
                    :: rest).
  { destruct H as [(_ & _ & e & _ & Htr)|(_ & _ & _ & Htr)];
      rewrite Htr in Hnew; apply app_inv_head in Hnew; subst new;
      unfold placement_prefix; cbn; eauto. }
  destruct Hshape as [tail ->]. split.
  - intros before ev after E Hev.
    destruct before as [|b0 [|b1 before]].
    + injection E as <- _. discriminate.
    + injection E as _ <- _. discriminate.
    + injection E as <- <- _. exists total, base, before. auto.
  - intros t rest E. injection E as _ E _. congruence.
Qed.

Lemma probe_is_released_before_commits_witness :
  (forall before ev after,
     [EvVirtualAllocExNuma 0 16384 8192 4 0 65536;
      EvVirtualFreeEx 65536 0 32768;
      EvVirtualAllocExNuma 65536 8192 12288 4 0 65536;
      EvVirtualAllocExNuma 73728 4096 12288 4 1 73728;
      EvPointerMapSubmit 2
        [mkAllocationSpec 65536 8192; mkAllocationSpec 73728 4096]]
       = before ++ ev :: after -> commits_memory ev = true ->
     exists total base rest,
       base <> NULL /\ padded_total unit4096 2 (spec_mem scenario) total /\
       commits_memory (probe_event total base) = false /\
       before = probe_event total base :: EvVirtualFreeEx base 0 MEM_RELEASE
                  :: rest) /\
  (forall total rest,
     [EvVirtualAllocExNuma 0 16384 8192 4 0 65536;
      EvVirtualFreeEx 65536 0 32768;
      EvVirtualAllocExNuma 65536 8192 12288 4 0 65536;
      EvVirtualAllocExNuma 73728 4096 12288 4 1 73728;
      EvPointerMapSubmit 2
        [mkAllocationSpec 65536 8192; mkAllocationSpec 73728 4096]]
       = probe_event total NULL :: rest -> 65536 = NULL /\ rest = []).
Proof.
  apply (probe_is_released_before_commits unit4096 10 2 scenario 65536
           scenario_final).
  - vm_compute. reflexivity.
  - reflexivity.
Defined.

(** ** C4: rollback *)

(** [siloMemoryFreeNUMA] on a recorded piece logs [release_event]. *)
Lemma siloMemoryFreeNUMA_logs p s :
  siloMemoryFreeNUMA (alloc_ptr p) (alloc_size p) s =
  Returned tt (mkState (spec_mem s) (accesses s) (trace s ++ [release_event p])).
Proof. reflexivity. Qed.

Lemma commits_are_granted P mem pieces commits :
  length commits = length pieces ->
  (forall j p, pieces !! j = Some p ->
     exists ev, commits !! j = Some ev /\ committed_piece P mem j p ev) ->
  forall ev, In ev commits ->
    exists a sz fl pr n result,
      ev = EvVirtualAllocExNuma a sz fl pr n result /\ result <> NULL.
Proof.
  intros Hlen Hp ev Hin.
  apply list_elem_of_In, list_elem_of_lookup in Hin as [j Hj].
  pose proof (lookup_lt_Some _ _ _ Hj) as Hlt. rewrite Hlen in Hlt.
  destruct (lookup_lt_is_Some_2 pieces j Hlt) as [p Hpj].
  destruct (Hp j p Hpj) as (ev' & Hev' & e & result & _ & _ & -> & Hres).
  rewrite Hj in Hev'. injection Hev' as ->.
  unfold commit_event. eauto 10.
Qed.

Lemma granted_is_not_failed a sz fl pr n result :
  result <> NULL -> failed_commit (EvVirtualAllocExNuma a sz fl pr n result) = false.
Proof.
  intros H. cbn. destruct (Z.eqb_spec result NULL); [contradiction|].
  apply andb_false_r.
Qed.

(** C4.  When a call that commits a piece is refused, the run consists of
    the probe and its release, the successful commits of the pieces before
    the refused one, the refused call, and then one release per committed
    piece, made through [siloMemoryFreeNUMA] with the recorded address and
    size of that piece; fewer than [count] pieces were attempted beyond it,
    nothing is submitted to the pointer map, and NULL is returned. *)
Theorem failed_commit_is_rolled_back
    (P : Platform) (fuel count : nat) (s : State) (r : Z) (s' : State)
    (new : list Event) :
  siloMultinodeArrayAlloc P fuel count s = Returned r s' ->
  trace s' = trace s ++ new ->
  existsb failed_commit new = true ->
  r = NULL /\
  exists total base pieces commits refused,
    new = placement_prefix total base commits ++ [refused]
            ++ map release_event pieces /\
    failed_commit refused = true /\
    (length pieces < count)%nat /\ length commits = length pieces /\
    (forall i p, pieces !! i = Some p ->
       exists e0 ev, spec_mem s !! i = Some e0 /\ commits !! i = Some ev /\
                     commits_request P e0 p ev) /\
    (forall p, In p pieces ->
       forall st, siloMemoryFreeNUMA (alloc_ptr p) (alloc_size p) st =
                  Returned tt (mkState (spec_mem st) (accesses st)
                                 (trace st ++ [release_event p]))) /\
    (forall n l, ~ In (EvPointerMapSubmit n l) new).
Proof.
  intros H Hnew Hfail. apply siloMultinodeArrayAlloc_Returned in H.
  apply existsb_exists in Hfail as (bad & Hin & Hbad).
  destruct H as [[Hr Htr]|(mem1 & total & Hval & _ & _ & _ & H)].
  { rewrite Htr in Hnew. rewrite <- (app_nil_r (trace s)) in Hnew at 1.
    apply app_inv_head in Hnew. subst new. destruct Hin. }
  destruct H as [[Hr Htr]|(base & pieces & commits & stop & Hbase & Hlen & _ & Hp & H)].
  { rewrite Htr in Hnew. apply app_inv_head in Hnew. subst new.
    destruct Hin as [<-|[]]. discriminate. }
  pose proof (commits_are_granted _ _ _ _ Hlen Hp) as Hgranted.
  destruct H as [(Hr & Hn & e & He & Htr)|(_ & _ & _ & Htr)];
    rewrite Htr in Hnew; apply app_inv_head in Hnew; subst new.
  - split; [exact Hr|].
    exists total, base, pieces, commits, (commit_event P e stop NULL).
    split; [reflexivity|]. split; [reflexivity|].
    split; [exact Hn|]. split; [exact Hlen|]. split.
    { intros i p Hi. destruct (Hp i p Hi) as (ev & Hev & Hc).
      pose proof (lookup_lt_Some _ _ _ Hi) as Hlt.
      assert (Hic : (i < count)%nat) by lia.
      destruct (committed_piece_request _ _ _ _ _ _ _ Hval Hic Hc)
        as (e0 & H0 & Hreq).
      eauto. }
    split; [intros p _ st; apply siloMemoryFreeNUMA_logs|].
    intros n l Hsub. unfold placement_prefix in Hsub.
    apply in_app_or in Hsub as [Hsub|Hsub].
    + cbn in Hsub. destruct Hsub as [E|[E|Hsub]]; try discriminate.
      destruct (Hgranted _ Hsub) as (? & ? & ? & ? & ? & ? & E & _).
      discriminate.
    + cbn in Hsub. destruct Hsub as [E|Hsub]; [discriminate|].
      apply in_map_iff in Hsub as (p & E & _). discriminate.
  - exfalso. unfold placement_prefix in Hin.
    apply in_app_or in Hin as [Hin|Hin].
    + cbn in Hin. destruct Hin as [<-|[<-|Hin]]; try discriminate.
      destruct (Hgranted _ Hin) as (? & ? & ? & ? & ? & ? & -> & Hres).
      rewrite granted_is_not_failed in Hbad by exact Hres. discriminate.
    + destruct Hin as [<-|[]]. discriminate.
Qed.

Lemma failed_commit_is_rolled_back_witness :
  0 = NULL /\
  exists total base pieces commits refused,
    trace scenario_rolled_back =
      placement_prefix total base commits ++ [refused]
        ++ map release_event pieces /\
    failed_commit refused = true /\
    (length pieces < 2)%nat /\ length commits = length pieces /\
    (forall i p, pieces !! i = Some p ->
       exists e0 ev, spec_mem scenario !! i = Some e0 /\ commits !! i = Some ev /\
                     commits_request unit4096_node1_exhausted e0 p ev) /\
    (forall p, In p pieces ->
       forall st, siloMemoryFreeNUMA (alloc_ptr p) (alloc_size p) st =
                  Returned tt (mkState (spec_mem st) (accesses st)
                                 (trace st ++ [release_event p]))) /\
    (forall n l, ~ In (EvPointerMapSubmit n l) (trace scenario_rolled_back)).
Proof.
  apply (failed_commit_is_rolled_back unit4096_node1_exhausted 10 2 scenario 0
           scenario_rolled_back (trace scenario_rolled_back)).
  - vm_compute. reflexivity.
  - reflexivity.
  - vm_compute. reflexivity.
Defined.

(** ** C6: a node that does not resolve *)

(** C6 fails on [unresolved_second]: the first request has been rounded in
    place when the second one is found not to resolve. *)
Lemma unresolved_node_leaves_rounded_sizes :
  topoGetNUMANodeOSIndex unit4096 7 < 0 /\
  forall fuel, ~ fails_without_effect unit4096 fuel 2 unresolved_second.
Proof.
  split; [reflexivity|].
  intros fuel (s' & H & _ & Hmem).
  vm_compute in H. injection H as <-. discriminate.
Qed.

(** C6, as amended: when a requested node does not resolve, the call returns
    NULL without any call to the system or to the pointer map; in the
    caller's array the sizes of the requests before the first one that does
    not resolve have been replaced by their rounded values, and nothing else
    has changed. *)
Theorem unresolved_node_fails_before_allocation
    (P : Platform) (fuel count : nat) (s : State) (j : nat)
    (e : SSiloMemorySpec) :
  (count <= length (spec_mem s))%nat ->
  siloWindowsGetAllocationUnitSize P false <> 0 ->
  (j < count)%nat -> spec_mem s !! j = Some e ->
  topoGetNUMANodeOSIndex P (spec_numaNode e) < 0 ->
  exists s' k,
    siloMultinodeArrayAlloc P fuel count s = Returned NULL s' /\
    trace s' = trace s /\
    (k <= j)%nat /\
    validated P (spec_mem s) (spec_mem s') 0 k /\
    exists ek, spec_mem s !! k = Some ek /\
               topoGetNUMANodeOSIndex P (spec_numaNode ek) < 0.
Proof.
  intros Hlen Hu Hj He Hbad.
  destruct (validate_loop_total P count 0 0 0 s) as (out & s1 & Hval);
    [lia | exact Hu |].
  pose proof (validate_loop_Returned _ _ _ _ _ _ _ _ Hval)
    as (Htr & k & Hk & Hvalid & Hout).
  assert (Hkj : (k <= j)%nat).
  { destruct (le_lt_dec k j) as [Hle|Hgt]; [exact Hle|].
    destruct Hvalid as (_ & Hin & _).
    destruct (Hin j) as (e0 & _ & H0 & _ & _ & Hok); [lia|].
    rewrite He in H0. injection H0 as <-. lia. }
  destruct out as [totals|]; [cbn in Hout; lia|].
  destruct Hout as (_ & ek & Hek & Hneg).
  exists s1, k. split.
  { unfold siloMultinodeArrayAlloc, bind. now rewrite Hval. }
  eauto 6.
Qed.

Lemma unresolved_node_fails_before_allocation_witness :
  exists s' k,
    siloMultinodeArrayAlloc unit4096 0 2 unresolved_second = Returned NULL s' /\
    trace s' = trace unresolved_second /\
    (k <= 1)%nat /\
    validated unit4096 (spec_mem unresolved_second) (spec_mem s') 0 k /\
    exists ek, spec_mem unresolved_second !! k = Some ek /\
               topoGetNUMANodeOSIndex unit4096 (spec_numaNode ek) < 0.
Proof.
  apply (unresolved_node_fails_before_allocation unit4096 0 2 unresolved_second
           1%nat (mkMemorySpec 5000 7)).
  - vm_compute. lia.
  - vm_compute. discriminate.
  - lia.
  - reflexivity.
  - reflexivity.
Defined.

(** ** C10: termination of the padding loop *)

Lemma bind_OutOfFuel {A B} (m : M A) (f : A -> M B) s :
  bind m f s = OutOfFuel ->
  m s = OutOfFuel \/ exists a s1, m s = Returned a s1 /\ f a s1 = OutOfFuel.
Proof.
  unfold bind. destruct (m s) as [a s1| |]; try discriminate; eauto.
Qed.

Lemma validate_loop_fuel P n : forall i tr ta s,
  validate_loop P n i tr ta s <> OutOfFuel.
Proof.
  induction n as [|n IH]; intros i tr ta s; [discriminate|].
  destruct (spec_mem s !! i) as [e|] eqn:He.
  - rewrite (validate_loop_step _ _ _ _ _ _ _ He).
    destruct (0 >? _); [discriminate|].
    destruct (siloWindowsRoundRequestedAllocationSize _ _ _);
      [apply IH | discriminate].
  - now rewrite validate_loop_unaddressable.
Qed.

Lemma commit_loop_fuel P n : forall i buf specs s,
  commit_loop P n i buf specs s <> OutOfFuel.
Proof.
  induction n as [|n IH]; intros i buf specs s; [discriminate|].
  destruct (spec_mem s !! i) as [e|] eqn:He.
  - rewrite (commit_loop_step _ _ _ _ _ _ _ He). cbn zeta.
    destruct (NULL =? _); [discriminate | apply IH].
  - now rewrite commit_loop_unaddressable.
Qed.

Lemma rollback_loop_fuel n : forall i specs s,
  rollback_loop n i specs s <> OutOfFuel.
Proof.
  induction n as [|n IH]; intros i specs s; [discriminate|].
  cbn. destruct (specs !! i); [|discriminate].
  unfold bind. cbn. apply IH.
Qed.

(** Only the padding loop can use up the fuel. *)
Lemma fuel_is_for_padding P fuel count s tr ta s1 :
  validate_loop P count 0 0 0 s = Returned (Some (tr, ta)) s1 ->
  siloMultinodeArrayAlloc P fuel count s = OutOfFuel ->
  padding_loop fuel (siloWindowsGetAllocationUnitSize P false) count tr ta s1
    = OutOfFuel.
Proof.
  intros Hval H. unfold siloMultinodeArrayAlloc in H.
  unfold bind at 1 in H. rewrite Hval in H.
  destruct (0 =? ta); [discriminate|].
  apply bind_OutOfFuel in H as [H|(total & s2 & _ & H)]; [exact H|].
  exfalso.
  apply bind_OutOfFuel in H as [H|(base & s3 & _ & H)]; [discriminate|].
  destruct (NULL =? base); [discriminate|].
  apply bind_OutOfFuel in H as [H|(? & s4 & _ & H)]; [discriminate|].
  apply bind_OutOfFuel in H as [H|([[[ok k] stop] specs] & s5 & _ & H)];
    [now apply commit_loop_fuel in H|].
  destruct ok; cbn [negb] in H.
  - destruct (specs !! 0%nat); [|discriminate].
    apply bind_OutOfFuel in H as [H|(? & s6 & _ & H)]; discriminate.
  - apply bind_OutOfFuel in H as [H|(? & s6 & _ & H)];
      [now apply rollback_loop_fuel in H | discriminate].
Qed.

Lemma padding_loop_near_top fuel : forall ta s,
  ta mod 4096 = 0 -> is_size_t ta -> length (spec_mem s) = 2%nat ->
  padding_loop fuel 4096 1 (2 ^ 64 - 2049) ta s = OutOfFuel.
Proof.
  induction fuel as [|fuel IH]; intros ta s Hmod Hta Hlen.
  - apply padding_loop_exhausted.
    unfold is_size_t, SIZE_MODULUS in Hta.
    pose proof (Z.div_mod ta 4096 ltac:(lia)). lia.
  - assert (Hlt : ta < 2 ^ 64 - 2049).
    { unfold is_size_t, SIZE_MODULUS in Hta.
      pose proof (Z.div_mod ta 4096 ltac:(lia)). lia. }
    destruct (lookup_lt_is_Some_2 (spec_mem s) 1) as [e He]; [lia|].
    rewrite (padding_loop_step _ _ _ _ _ _ _ Hlt He).
    apply IH.
    + unfold size_t, SIZE_MODULUS.
      rewrite Z.mod_mod_divide by (exists (2 ^ 52); reflexivity).
      rewrite <- Zplus_mod_idemp_l, Hmod. reflexivity.
    + apply size_t_range.
    + cbn. now rewrite length_insert.
Qed.

(** C10 fails on [near_top]: with a 4096-byte unit the running total passes
    from [2^64 - 4096] to 0 and never reaches [2^64 - 2049]. *)
Lemma padding_wraps_forever :
  0 < siloWindowsGetAllocationUnitSize unit4096 false /\
  forall fuel, siloMultinodeArrayAlloc unit4096 fuel 1 near_top = OutOfFuel.
Proof.
  split; [reflexivity|]. intros fuel.
  assert (Hval : validate_loop unit4096 1 0 0 0 near_top =
                 Returned (Some (2 ^ 64 - 2049, 2 ^ 64 - 4096))
                   (mkState [mkMemorySpec (2 ^ 64 - 4096) 0; mkMemorySpec 0 0]
                      [SpecRead 0; SpecRead 0; SpecRead 0; SpecWrite 0;
                       SpecRead 0] []))
    by (vm_compute; reflexivity).
  unfold siloMultinodeArrayAlloc. unfold bind at 1. rewrite Hval.
  change (0 =? 2 ^ 64 - 4096) with false. cbv iota.
  unfold bind at 1.
  change (siloWindowsGetAllocationUnitSize unit4096 false) with 4096.
  rewrite padding_loop_near_top; [reflexivity|reflexivity| |reflexivity].
  unfold is_size_t, SIZE_MODULUS. lia.
Qed.

(** C10, as amended: for a positive allocation unit and requests whose total
    (in [size_t]) lies at least one unit below [2^64], the padding loop
    terminates: with enough fuel the call does not run out of it, and the
    loop, when the first loop has passed control to it, ends with a running
    total that covers the requested total (or stops at the access to
    [spec[count]] when that object is not addressable). *)
Theorem padding_terminates_below_wrap
    (P : Platform) (count : nat) (s : State) :
  let u := siloWindowsGetAllocationUnitSize P false in
  0 < u ->
  size_t (total_size (take count (spec_mem s))) + u <= SIZE_MODULUS ->
  exists n, forall fuel, (n <= fuel)%nat ->
    siloMultinodeArrayAlloc P fuel count s <> OutOfFuel /\
    forall tr ta s1,
      validate_loop P count 0 0 0 s = Returned (Some (tr, ta)) s1 ->
      match padding_loop fuel u count tr ta s1 with
      | Returned ta' _ => tr <= ta'
      | Undefined => (length (spec_mem s1) <= count)%nat
      | OutOfFuel => False
      end.
Proof.
  intros u Hu Htop.
  exists (Z.to_nat (size_t (total_size (take count (spec_mem s))))).
  intros fuel Hfuel.
  assert (Hloop : forall tr ta s1,
            validate_loop P count 0 0 0 s = Returned (Some (tr, ta)) s1 ->
            match padding_loop fuel u count tr ta s1 with
            | Returned ta' _ => tr <= ta'
            | Undefined => (length (spec_mem s1) <= count)%nat
            | OutOfFuel => False
            end).
  { intros tr ta s1 Hval.
    pose proof (validate_loop_totals _ _ _ _ _ _ _ _ _ Hval) as [Htr _].
    pose proof (validate_loop_range _ _ _ _ _ _ _ _ _ Hval) as [Hr_tr Hr_ta];
      [unfold is_size_t, SIZE_MODULUS; lia..|].
    rewrite drop_0, Z.add_0_l, size_t_small in Htr by exact Hr_tr.
    rewrite <- Htr in Htop, Hfuel.
    apply padding_loop_enough_fuel; try assumption.
    - apply Hr_ta.
    - destruct Hr_tr as [Hlow _]. destruct Hr_ta as [Hlow' _]. nia. }
  split; [|exact Hloop].
  intros H.
  destruct (validate_loop P count 0 0 0 s) as [[[tr ta]|] s1| |] eqn:Hval.
  - specialize (Hloop tr ta s1 eq_refl). unfold u in Hloop.
    now rewrite (fuel_is_for_padding _ _ _ _ _ _ _ Hval H) in Hloop.
  - unfold siloMultinodeArrayAlloc, bind in H. now rewrite Hval in H.
  - unfold siloMultinodeArrayAlloc, bind in H. now rewrite Hval in H.
  - now apply validate_loop_fuel in Hval.
Qed.

Lemma padding_terminates_below_wrap_witness :
  exists n, forall fuel, (n <= fuel)%nat ->
    siloMultinodeArrayAlloc unit4096 fuel 2 scenario <> OutOfFuel /\
    forall tr ta s1,
      validate_loop unit4096 2 0 0 0 scenario = Returned (Some (tr, ta)) s1 ->
      match padding_loop fuel (siloWindowsGetAllocationUnitSize unit4096 false)
              2 tr ta s1 with
      | Returned ta' _ => tr <= ta'
      | Undefined => (length (spec_mem s1) <= 2)%nat
      | OutOfFuel => False
      end.
Proof.
  apply (padding_terminates_below_wrap unit4096 2 scenario).
  - reflexivity.
  - vm_compute. discriminate.
Defined.

(** ** C1, C2, C9: the padding goes to [spec[count]] *)

(** C1, at the worked example: the call succeeds, and the pieces committed
    and recorded have the sizes 8192 and 4096, whose sum 12288 is below the
    15000 bytes requested; the padding has not reached the last piece. *)
Theorem scenario_pieces_do_not_cover_request :
  exists s' before pieces,
    siloMultinodeArrayAlloc unit4096 10 2 scenario = Returned 65536 s' /\
    trace s' = before ++ [EvPointerMapSubmit 2 pieces] /\
    map alloc_size pieces = [8192; 4096] /\
    total_size (take 2 (spec_mem scenario)) = 15000 /\
    Zsum (map alloc_size pieces) < total_size (take 2 (spec_mem scenario)).
Proof.
  exists scenario_final.
  exists [EvVirtualAllocExNuma 0 16384 8192 4 0 65536;
          EvVirtualFreeEx 65536 0 32768;
          EvVirtualAllocExNuma 65536 8192 12288 4 0 65536;
          EvVirtualAllocExNuma 73728 4096 12288 4 1 73728].
  exists [mkAllocationSpec 65536 8192; mkAllocationSpec 73728 4096].
  split; [exact scenario_runs|]. repeat split.
Qed.

(** C2, at the worked example: the sizes left in the caller's two-element
    array, which are the sizes of the two commits, are 8192 and 4096, not
    8192 and 8192; the 4096 bytes of padding have been added to the object
    that follows the array. *)
Theorem scenario_final_sizes :
  siloMultinodeArrayAlloc unit4096 10 2 scenario = Returned 65536 scenario_final /\
  map spec_size (take 2 (spec_mem scenario_final)) = [8192; 4096] /\
  map spec_size (take 2 (spec_mem scenario_final)) <> [8192; 8192] /\
  spec_mem scenario !! 2%nat = Some (mkMemorySpec 77 3) /\
  spec_mem scenario_final !! 2%nat = Some (mkMemorySpec (77 + 4096) 3) /\
  In (EvVirtualAllocExNuma 73728 4096 (Z.lor MEM_RESERVE MEM_COMMIT)
        PAGE_READWRITE 1 73728) (trace scenario_final).
Proof.
  split; [exact scenario_runs|].
  split; [reflexivity|]. split; [discriminate|].
  split; [reflexivity|]. split; [reflexivity|].
  cbn. auto.
Qed.

(** C9, at the worked example: with [count = 2] the call writes the element
    of index 2, and has no defined behaviour when no object follows the
    array. *)
Theorem scenario_writes_past_the_array :
  (exists s',
     siloMultinodeArrayAlloc unit4096 10 2 scenario = Returned 65536 s' /\
     In (SpecRead 2) (accesses s') /\ In (SpecWrite 2) (accesses s')) /\
  siloMultinodeArrayAlloc unit4096 10 2 scenario_alone = Undefined.
Proof.
  split.
  - exists scenario_final. split; [exact scenario_runs|].
    split; cbn; tauto.
  - vm_compute. reflexivity.
Qed.

(** * Further properties *)

(** ** The allocation unit and the rounding *)

Lemma DWORD_nonneg z : 0 <= DWORD z.
Proof. unfold DWORD. apply Z.mod_pos_bound. reflexivity. Qed.

(** X1.  The allocation unit is the largest of the allocation granularity,
    the page size and, when large pages are asked for, the large-page minimum
    reduced to a [DWORD] (0 stands for it otherwise); asking for large pages
    never makes the unit smaller. *)
Theorem allocation_unit_is_largest (P : Platform) (large : bool) :
  siloWindowsGetAllocationUnitSize P large =
    Z.max (Z.max (dwAllocationGranularity P) (dwPageSize P))
          (if large then DWORD (GetLargePageMinimum P) else 0) /\
  siloWindowsGetAllocationUnitSize P false
    <= siloWindowsGetAllocationUnitSize P true.
Proof.
  pose proof (DWORD_nonneg (GetLargePageMinimum P)) as Hl.
  unfold siloWindowsGetAllocationUnitSize. cbv zeta.
  destruct (Z.gtb_spec (dwPageSize P) (dwAllocationGranularity P));
    (split;
     [ destruct large | ];
     repeat match goal with
            | |- context [?a >? ?b] => destruct (Z.gtb_spec a b)
            end; lia).
Qed.

(** X2.  Under a unit of at least 2, a size that is already a multiple of
    the unit is rounded to itself. *)
Theorem round_keeps_multiples (P : Platform) (s : Z) (large : bool) :
  let u := siloWindowsGetAllocationUnitSize P large in
  2 <= u -> is_size_t s -> s mod u = 0 ->
  siloWindowsRoundRequestedAllocationSize P s large = Some s.
Proof.
  intros u Hu Hs Hmod. unfold u.
  rewrite round_unfold by (fold u; lia). fold u. rewrite Hmod.
  assert (Hhalf : 0 < u / 2) by (apply Z.div_str_pos; lia).
  destruct (Z.leb_spec (u / 2) 0) as [H|_]; [lia|].
  assert (E : u * (s / u) = s).
  { pose proof (Z.div_mod s u ltac:(lia)). lia. }
  rewrite E. f_equal. now apply size_t_small.
Qed.

Lemma round_keeps_multiples_witness :
  siloWindowsRoundRequestedAllocationSize unit4096 8192 false = Some 8192.
Proof.
  apply (round_keeps_multiples unit4096 8192 false).
  - vm_compute. discriminate.
  - vm_compute. split; congruence.
  - reflexivity.
Defined.

(** The value of the rounding when nothing wraps around. *)
Lemma round_value P s large :
  let u := siloWindowsGetAllocationUnitSize P large in
  0 < u -> is_size_t s -> u * (s / u + 1) < SIZE_MODULUS ->
  siloWindowsRoundRequestedAllocationSize P s large =
    Some (if u / 2 <=? s mod u then u * (s / u + 1) else u * (s / u)).
Proof.
  intros u Hu [Hs0 Hs1] Hfit. unfold u. rewrite round_unfold by exact Hu.
  fold u. f_equal. apply size_t_small.
  assert (0 <= s / u) by (apply Z.div_pos; lia).
  assert (0 <= u * (s / u)) by (apply Z.mul_nonneg_nonneg; lia).
  destruct (u / 2 <=? s mod u); lia.
Qed.

(** X3.  Rounding is monotone: of two sizes, the larger one is not rounded
    to less, as long as the multiple of the unit above it fits in
    [size_t]. *)
Theorem round_is_monotone (P : Platform) (s1 s2 : Z) (large : bool) :
  let u := siloWindowsGetAllocationUnitSize P large in
  0 < u -> 0 <= s1 -> s1 <= s2 -> s2 < SIZE_MODULUS ->
  u * (s2 / u + 1) < SIZE_MODULUS ->
  exists r1 r2,
    siloWindowsRoundRequestedAllocationSize P s1 large = Some r1 /\
    siloWindowsRoundRequestedAllocationSize P s2 large = Some r2 /\
    r1 <= r2.
Proof.
  intros u Hu H1 H12 H2 Hfit.
  assert (Hq : s1 / u <= s2 / u) by (apply Z.div_le_mono; lia).
  assert (Hfit1 : u * (s1 / u + 1) < SIZE_MODULUS).
  { assert (u * (s1 / u + 1) <= u * (s2 / u + 1))
      by (apply Z.mul_le_mono_nonneg_l; lia). lia. }
  unfold u.
  rewrite (round_value P s1 large), (round_value P s2 large);
    try assumption; try (split; lia).
  fold u. eexists. eexists. split; [reflexivity|]. split; [reflexivity|].
  pose proof (Z.div_mod s1 u ltac:(lia)) as E1.
  pose proof (Z.div_mod s2 u ltac:(lia)) as E2.
  pose proof (Z.mod_pos_bound s1 u Hu) as B1.
  pose proof (Z.mod_pos_bound s2 u Hu) as B2.
  destruct (Z.eq_dec (s1 / u) (s2 / u)) as [Eq|Hne].
  - rewrite Eq in *.
    destruct (Z.leb_spec (u / 2) (s1 mod u)), (Z.leb_spec (u / 2) (s2 mod u));
      lia.
  - assert (Hstep : u * (s1 / u + 1) <= u * (s2 / u))
      by (apply Z.mul_le_mono_nonneg_l; lia).
    destruct (Z.leb_spec (u / 2) (s1 mod u)), (Z.leb_spec (u / 2) (s2 mod u));
      lia.
Qed.

Lemma round_is_monotone_witness :
  exists r1 r2,
    siloWindowsRoundRequestedAllocationSize unit4096 5000 false = Some r1 /\
    siloWindowsRoundRequestedAllocationSize unit4096 10000 false = Some r2 /\
    r1 <= r2.
Proof.
  apply (round_is_monotone unit4096 5000 10000 false); vm_compute;
    try reflexivity; congruence.
Defined.

(** X4.  Rounding moves a size by at most the unit less half the unit
    (integer division), as long as the multiple of the unit above the size
    fits in [size_t]. *)
Theorem round_moves_at_most_half_a_unit (P : Platform) (s : Z) (large : bool) :
  let u := siloWindowsGetAllocationUnitSize P large in
  0 < u -> is_size_t s -> u * (s / u + 1) < SIZE_MODULUS ->
  exists r,
    siloWindowsRoundRequestedAllocationSize P s large = Some r /\
    Z.abs (r - s) <= u - u / 2.
Proof.
  intros u Hu Hs Hfit. unfold u.
  rewrite (round_value P s large) by assumption. fold u.
  eexists. split; [reflexivity|].
  pose proof (Z.div_mod s u ltac:(lia)) as E.
  pose proof (Z.mod_pos_bound s u Hu) as B.
  assert (Hh : 0 <= u / 2) by (apply Z.div_pos; lia).
  assert (Hh2 : 2 * (u / 2) <= u).
  { pose proof (Z.div_mod u 2 ltac:(lia)).
    pose proof (Z.mod_pos_bound u 2 ltac:(lia)). lia. }
  destruct (Z.leb_spec (u / 2) (s mod u)); lia.
Qed.

Lemma round_moves_at_most_half_a_unit_witness :
  exists r,
    siloWindowsRoundRequestedAllocationSize unit4096 10000 false = Some r /\
    Z.abs (r - 10000) <= 4096 - 4096 / 2.
Proof.
  apply (round_moves_at_most_half_a_unit unit4096 10000 false); vm_compute;
    try reflexivity; try (split; congruence); congruence.
Defined.

Lemma round_multiple_when_unit_divides P s large r :
  let u := siloWindowsGetAllocationUnitSize P large in
  0 < u -> (u | SIZE_MODULUS) ->
  siloWindowsRoundRequestedAllocationSize P s large = Some r ->
  r mod u = 0.
Proof.
  intros u Hu Hdiv H. unfold u in H. rewrite round_unfold in H by exact Hu.
  fold u in H. injection H as <-. unfold size_t.
  rewrite Z.mod_mod_divide by exact Hdiv.
  destruct (u / 2 <=? s mod u); rewrite Z.mul_comm; apply Z_mod_mult.
Qed.

(** X5.  When the unit divides [2^64] (a power of two), every size, however
    large, is rounded to a multiple of the unit that is a [size_t] value:
    the wrap-around of the product does not break divisibility. *)
Theorem round_gives_multiple_for_power_of_two_unit
    (P : Platform) (s : Z) (large : bool) :
  let u := siloWindowsGetAllocationUnitSize P large in
  0 < u -> (u | SIZE_MODULUS) ->
  exists r,
    siloWindowsRoundRequestedAllocationSize P s large = Some r /\
    r mod u = 0 /\ is_size_t r.
Proof.
  intros u Hu Hdiv.
  destruct (siloWindowsRoundRequestedAllocationSize P s large) as [r|] eqn:Hr.
  - exists r. split; [reflexivity|]. split.
    + eapply round_multiple_when_unit_divides; eauto.
    + unfold u in Hu. rewrite round_unfold in Hr by exact Hu.
      injection Hr as <-. apply size_t_range.
  - unfold u in Hu. rewrite round_unfold in Hr by exact Hu. discriminate.
Qed.

Lemma round_gives_multiple_for_power_of_two_unit_witness :
  exists r,
    siloWindowsRoundRequestedAllocationSize unit4096 (2 ^ 64 - 1) false
      = Some r /\
    r mod 4096 = 0 /\ is_size_t r.
Proof.
  apply (round_gives_multiple_for_power_of_two_unit unit4096 (2 ^ 64 - 1) false).
  - reflexivity.
  - exists (2 ^ 52). reflexivity.
Defined.

(** ** The calls of a run *)

Lemma count_events_app f l1 l2 :
  count_events f (l1 ++ l2) = (count_events f l1 + count_events f l2)%nat.
Proof. induction l1 as [|ev l1 IH]; cbn; [reflexivity | rewrite IH; lia]. Qed.

Lemma count_events_all f l :
  (forall ev, In ev l -> f ev = true) -> count_events f l = length l.
Proof.
  induction l as [|ev l IH]; intros H; [reflexivity|]. cbn.
  rewrite (H ev) by now left. rewrite IH; [reflexivity|].
  intros ev' Hin. apply H. now right.
Qed.

Lemma count_events_none f l :
  (forall ev, In ev l -> f ev = false) -> count_events f l = 0%nat.
Proof.
  induction l as [|ev l IH]; intros H; [reflexivity|]. cbn.
  rewrite (H ev) by now left. rewrite IH; [reflexivity|].
  intros ev' Hin. apply H. now right.
Qed.

Lemma count_events_releases f pieces :
  (forall p, f (release_event p) = true) ->
  count_events f (map release_event pieces) = length pieces.
Proof.
  intros H. rewrite count_events_all, length_map; [reflexivity|].
  intros ev Hin. apply in_map_iff in Hin as (p & <- & _). apply H.
Qed.

Lemma count_events_no_releases f pieces :
  (forall p, f (release_event p) = false) ->
  count_events f (map release_event pieces) = 0%nat.
Proof.
  intros H. apply count_events_none.
  intros ev Hin. apply in_map_iff in Hin as (p & <- & _). apply H.
Qed.

(** The events of the commits that were granted are commit events with a
    result other than NULL. *)
Lemma commits_are_commit_events P mem pieces commits :
  length commits = length pieces ->
  (forall j p, pieces !! j = Some p ->
     exists ev, commits !! j = Some ev /\ committed_piece P mem j p ev) ->
  forall ev, In ev commits ->
    exists e address result,
      ev = commit_event P e address result /\ result <> NULL.
Proof.
  intros Hlen Hp ev Hin.
  apply list_elem_of_In, list_elem_of_lookup in Hin as [j Hj].
  pose proof (lookup_lt_Some _ _ _ Hj) as Hlt. rewrite Hlen in Hlt.
  destruct (lookup_lt_is_Some_2 pieces j Hlt) as [p Hpj].
  destruct (Hp j p Hpj) as (ev' & Hev' & e & result & _ & _ & -> & Hres).
  rewrite Hj in Hev'. injection Hev' as ->. eauto.
Qed.

Lemma is_grant_commit_event P e address result :
  result <> NULL -> is_grant (commit_event P e address result) = true.
Proof. intros H. cbn. now destruct (Z.eqb_spec result NULL). Qed.

(** The calls of a returning run, branch by branch. *)
Lemma new_events P fuel count s r s' new :
  siloMultinodeArrayAlloc P fuel count s = Returned r s' ->
  trace s' = trace s ++ new ->
  (r = NULL /\ new = []) \/
  (exists total, r = NULL /\ new = [probe_event total NULL]) \/
  exists total base pieces commits,
    base <> NULL /\ length commits = length pieces /\
    (forall ev, In ev commits ->
       exists e address result,
         ev = commit_event P e address result /\ result <> NULL) /\
    ((r = NULL /\ (length pieces < count)%nat /\
      exists e stop,
        new = placement_prefix total base commits
                ++ [commit_event P e stop NULL] ++ map release_event pieces) \/
     (r = base /\ length pieces = count /\
      new = placement_prefix total base commits
              ++ [EvPointerMapSubmit count pieces])).
Proof.
  intros H Hnew. apply siloMultinodeArrayAlloc_Returned in H.
  destruct H as [[Hr Htr]|(mem1 & total & _ & _ & _ & _ & H)].
  { left. split; [exact Hr|]. rewrite Htr in Hnew.
    rewrite <- (app_nil_r (trace s)) in Hnew at 1.
    now apply app_inv_head in Hnew. }
  right.
  destruct H as [[Hr Htr]|(base & pieces & commits & stop & Hbase & Hlen & _ & Hp & H)].
  { left. exists total. split; [exact Hr|]. rewrite Htr in Hnew.
    now apply app_inv_head in Hnew. }
  right. exists total, base, pieces, commits.
  split; [exact Hbase|]. split; [exact Hlen|].
  split; [exact (commits_are_commit_events _ _ _ _ Hlen Hp)|].
  destruct H as [(Hr & Hn & e & _ & Htr)|(Hr & Hn & _ & Htr)];
    rewrite Htr in Hnew; apply app_inv_head in Hnew; subst new.
  - left. split; [exact Hr|]. split; [exact Hn|]. now exists e, stop.
  - right. auto.
Qed.

(** X6.  No call that [siloMultinodeArrayAlloc] makes asks for large pages
    or for a protection other than read-write, and every release it makes is
    of a whole region ([dwSize] 0 with [MEM_RELEASE]). *)
Theorem calls_are_plain
    (P : Platform) (fuel count : nat) (s : State) (r : Z) (s' : State)
    (new : list Event) :
  siloMultinodeArrayAlloc P fuel count s = Returned r s' ->
  trace s' = trace s ++ new ->
  forall ev, In ev new -> plain_call ev = true.
Proof.
  intros H Hnew ev Hin.
  destruct (new_events _ _ _ _ _ _ _ H Hnew)
    as [[_ ->]|[(total & _ & ->)|(total & base & pieces & commits & _ & _
                                   & Hc & Hcase)]].
  - destruct Hin.
  - destruct Hin as [<-|[]]. reflexivity.
  - assert (Hprefix : forall ev, In ev (placement_prefix total base commits) ->
              plain_call ev = true).
    { intros ev' Hin'. destruct Hin' as [<-|[<-|Hin']]; try reflexivity.
      destruct (Hc _ Hin') as (e & a & res & -> & _). reflexivity. }
    destruct Hcase as [(_ & _ & e & stop & ->)|(_ & _ & ->)];
      apply in_app_or in Hin as [Hin|Hin]; auto.
    + destruct Hin as [<-|Hin]; [reflexivity|].
      apply in_map_iff in Hin as (p & <- & _). reflexivity.
    + destruct Hin as [<-|[]]. reflexivity.
Qed.

Lemma calls_are_plain_witness :
  In (EvVirtualFreeEx 65536 0 MEM_RELEASE) (trace scenario_rolled_back) /\
  plain_call (EvVirtualFreeEx 65536 0 MEM_RELEASE) = true.
Proof.
  split; [cbn; tauto|].
  apply (calls_are_plain unit4096_node1_exhausted 10 2 scenario 0
           scenario_rolled_back (trace scenario_rolled_back)).
  - vm_compute. reflexivity.
  - reflexivity.
  - cbn. tauto.
Defined.

(** X7.  A run submits to the pointer map exactly once when it returns a
    pointer, and not at all when it returns NULL. *)
Theorem pointer_returned_iff_submitted
    (P : Platform) (fuel count : nat) (s : State) (r : Z) (s' : State)
    (new : list Event) :
  siloMultinodeArrayAlloc P fuel count s = Returned r s' ->
  trace s' = trace s ++ new ->
  count_events is_submit new = (if r =? NULL then 0%nat else 1%nat).
Proof.
  intros H Hnew.
  destruct (new_events _ _ _ _ _ _ _ H Hnew)
    as [[-> ->]|[(total & -> & ->)|(total & base & pieces & commits & Hbase & _
                                     & Hc & Hcase)]]; try reflexivity.
  assert (Hcommits : count_events is_submit commits = 0%nat).
  { apply count_events_none. intros ev Hin.
    destruct (Hc _ Hin) as (e & a & res & -> & _). reflexivity. }
  destruct Hcase as [(-> & _ & e & stop & ->)|(-> & _ & ->)];
    unfold placement_prefix; rewrite !count_events_app, Hcommits.
  - rewrite count_events_no_releases by reflexivity. reflexivity.
  - destruct (Z.eqb_spec base NULL); [contradiction|]. reflexivity.
Qed.

Lemma pointer_returned_iff_submitted_witness :
  count_events is_submit (trace scenario_final)
    = (if 65536 =? NULL then 0%nat else 1%nat).
Proof.
  apply (pointer_returned_iff_submitted unit4096 10 2 scenario 65536
           scenario_final (trace scenario_final)).
  - vm_compute. reflexivity.
  - reflexivity.
Defined.

(** X8.  Grants and releases balance: in a run that returns NULL every
    region the system granted (the probe included) is released again, and in
    a run that returns a pointer exactly [count] granted regions, the pieces,
    are left unreleased. *)
Theorem grants_and_releases_balance
    (P : Platform) (fuel count : nat) (s : State) (r : Z) (s' : State)
    (new : list Event) :
  siloMultinodeArrayAlloc P fuel count s = Returned r s' ->
  trace s' = trace s ++ new ->
  count_events is_grant new =
    (count_events is_release new + (if (r =? NULL)%Z then 0 else count))%nat.
Proof.
  intros H Hnew.
  destruct (new_events _ _ _ _ _ _ _ H Hnew)
    as [[-> ->]|[(total & -> & ->)|(total & base & pieces & commits & Hbase
                                     & Hlen & Hc & Hcase)]]; try reflexivity.
  assert (Hgrants : count_events is_grant commits = length commits).
  { apply count_events_all. intros ev Hin.
    destruct (Hc _ Hin) as (e & a & res & -> & Hres).
    now apply is_grant_commit_event. }
  assert (Hreleases : count_events is_release commits = 0%nat).
  { apply count_events_none. intros ev Hin.
    destruct (Hc _ Hin) as (e & a & res & -> & _). reflexivity. }
  assert (Hprobe : is_grant (probe_event total base) = true).
  { cbn. now destruct (Z.eqb_spec base NULL). }
  destruct Hcase as [(-> & _ & e & stop & ->)|(-> & Hn & ->)];
    unfold placement_prefix; rewrite !count_events_app, Hgrants, Hreleases;
    cbn [count_events app]; rewrite Hprobe.
  - rewrite count_events_no_releases, count_events_releases by reflexivity.
    cbn. lia.
  - destruct (Z.eqb_spec base NULL); [contradiction|]. cbn. lia.
Qed.

Lemma grants_and_releases_balance_witness :
  count_events is_grant (trace scenario_rolled_back) =
    (count_events is_release (trace scenario_rolled_back)
     + (if (0 =? NULL)%Z then 0 else 2))%nat.
Proof.
  apply (grants_and_releases_balance unit4096_node1_exhausted 10 2 scenario 0
           scenario_rolled_back (trace scenario_rolled_back)).
  - vm_compute. reflexivity.
  - reflexivity.
Defined.

(** ** The caller's array on return *)

(** X9.  Once a run has called the system, whatever it returns, every one of
    the [count] requests of the caller's array holds on return the rounded
    value of the size it held at the call, on the same node. *)
Theorem requests_are_rounded_once_system_called
    (P : Platform) (fuel count : nat) (s : State) (r : Z) (s' : State) :
  siloMultinodeArrayAlloc P fuel count s = Returned r s' ->
  trace s' <> trace s ->
  forall j, (j < count)%nat ->
    exists e e',
      spec_mem s !! j = Some e /\ spec_mem s' !! j = Some e' /\
      rounded_entry P e e'.
Proof.
  intros H Hcalled j Hj. apply siloMultinodeArrayAlloc_Returned in H.
  destruct H as [[_ Htr]|(mem1 & total & Hval & _ & _ & Hsame & _)];
    [contradiction|].
  destruct Hval as (_ & Hin & _).
  destruct (Hin j) as (e & e' & He & He' & Hround & _); [lia|].
  exists e, e'. split; [exact He|]. split; [|exact Hround].
  rewrite Hsame by lia. exact He'.
Qed.

Lemma requests_are_rounded_once_system_called_witness :
  exists e e',
    spec_mem scenario !! 1%nat = Some e /\
    spec_mem scenario_rolled_back !! 1%nat = Some e' /\
    rounded_entry unit4096_node1_exhausted e e'.
Proof.
  apply (requests_are_rounded_once_system_called unit4096_node1_exhausted 10 2
           scenario 0 scenario_rolled_back).
  - vm_compute. reflexivity.
  - discriminate.
  - lia.
Defined.

(** X10.  When a pointer is returned, the size left in entry [i] of the
    caller's array is the size of the piece [i] submitted to the pointer
    map. *)
Theorem piece_sizes_are_written_back
    (P : Platform) (fuel count : nat) (s : State) (r : Z) (s' : State) :
  siloMultinodeArrayAlloc P fuel count s = Returned r s' ->
  r <> NULL ->
  exists before pieces,
    trace s' = trace s ++ before ++ [EvPointerMapSubmit count pieces] /\
    length pieces = count /\
    forall i p, pieces !! i = Some p ->
      exists e', spec_mem s' !! i = Some e' /\ spec_size e' = alloc_size p.
Proof.
  intros H Hr. apply siloMultinodeArrayAlloc_Returned in H.
  destruct H as [[H _]|(mem1 & total & _ & _ & _ & Hsame & H)]; [contradiction|].
  destruct H as [[H _]|(base & pieces & commits & stop & _ & _ & _ & Hp & H)];
    [contradiction|].
  destruct H as [[H _]|(_ & Hn & _ & Htr)]; [contradiction|].
  exists (placement_prefix total base commits), pieces.
  split; [exact Htr|]. split; [exact Hn|].
  intros i p Hi. pose proof (lookup_lt_Some _ _ _ Hi) as Hlt.
  destruct (Hp i p Hi) as (ev & _ & e & result & He & Hsize & _).
  exists e. split; [|now rewrite Hsize].
  rewrite Hsame by lia. exact He.
Qed.

Lemma piece_sizes_are_written_back_witness :
  exists before pieces,
    trace scenario_final
      = trace scenario ++ before ++ [EvPointerMapSubmit 2 pieces] /\
    length pieces = 2%nat /\
    forall i p, pieces !! i = Some p ->
      exists e', spec_mem scenario_final !! i = Some e' /\
                 spec_size e' = alloc_size p.
Proof.
  apply (piece_sizes_are_written_back unit4096 10 2 scenario 65536
           scenario_final).
  - vm_compute. reflexivity.
  - discriminate.
Defined.

(** ** Alignment of the pieces *)

Lemma size_t_congruent u z :
  (u | SIZE_MODULUS) -> size_t z mod u = z mod u.
Proof. intros H. unfold size_t. now apply Z.mod_mod_divide. Qed.

Lemma chained_aligned u r pieces : forall base stop,
  0 < u -> (u | SIZE_MODULUS) ->
  chained base pieces stop ->
  (base - r) mod u = 0 ->
  (forall p, In p pieces -> alloc_size p mod u = 0) ->
  forall p, In p pieces -> (alloc_ptr p - r) mod u = 0.
Proof.
  induction pieces as [|p0 rest IH]; intros base stop Hu Hdiv Hch Hbase Hsizes p Hin;
    [destruct Hin|].
  destruct Hch as [Hp0 Hrest]. destruct Hin as [<-|Hin].
  - now rewrite Hp0.
  - apply (IH _ _ Hu Hdiv Hrest); [|intros q Hq; apply Hsizes; now right|exact Hin].
    rewrite <- Zminus_mod_idemp_l, (size_t_congruent u _ Hdiv),
      Zminus_mod_idemp_l.
    replace (base + alloc_size p0 - r) with ((base - r) + alloc_size p0) by lia.
    rewrite Z.add_mod, Hbase, (Hsizes p0) by (try lia; now left).
    reflexivity.
Qed.

(** X11.  When the unit divides [2^64] (a power of two) and a pointer is
    returned, every piece submitted to the pointer map has a size that is a
    multiple of the unit and lies at a multiple of the unit from the pointer
    returned. *)
Theorem pieces_are_unit_aligned
    (P : Platform) (fuel count : nat) (s : State) (r : Z) (s' : State) :
  let u := siloWindowsGetAllocationUnitSize P false in
  0 < u -> (u | SIZE_MODULUS) ->
  siloMultinodeArrayAlloc P fuel count s = Returned r s' ->
  r <> NULL ->
  exists before pieces,
    trace s' = trace s ++ before ++ [EvPointerMapSubmit count pieces] /\
    forall p, In p pieces ->
      alloc_size p mod u = 0 /\ (alloc_ptr p - r) mod u = 0.
Proof.
  intros u Hu Hdiv H Hr.
  destruct (success_shape _ _ _ _ _ _ H Hr)
    as (total & pieces & commits & stop & Htr & _ & _ & Hch & Hp).
  exists (placement_prefix total r commits), pieces.
  split; [exact Htr|].
  assert (Hsizes : forall p, In p pieces -> alloc_size p mod u = 0).
  { intros p Hin.
    apply list_elem_of_In, list_elem_of_lookup in Hin as [j Hj].
    destruct (Hp j p Hj) as (e0 & ev & _ & _ & Hround & _).
    eapply round_multiple_when_unit_divides; eauto. }
  intros p Hin. split; [now apply Hsizes|].
  eapply chained_aligned; eauto.
  rewrite Z.sub_diag. reflexivity.
Qed.

Lemma pieces_are_unit_aligned_witness :
  exists before pieces,
    trace scenario_final
      = trace scenario ++ before ++ [EvPointerMapSubmit 2 pieces] /\
    forall p, In p pieces ->
      alloc_size p mod siloWindowsGetAllocationUnitSize unit4096 false = 0 /\
      (alloc_ptr p - 65536) mod siloWindowsGetAllocationUnitSize unit4096 false
        = 0.
Proof.
  apply (pieces_are_unit_aligned unit4096 10 2 scenario 65536 scenario_final).
  - reflexivity.
  - exists (2 ^ 52). reflexivity.
  - vm_compute. reflexivity.
  - discriminate.
Defined.

(** ** Requests that round to nothing *)

Lemma round_below_half P z :
  let u := siloWindowsGetAllocationUnitSize P false in
  0 < u -> 0 <= z < u / 2 ->
  siloWindowsRoundRequestedAllocationSize P z false = Some 0.
Proof.
  intros u Hu Hz.
  assert (Hhalf : u / 2 <= u).
  { pose proof (Z.div_mod u 2 ltac:(lia)).
    pose proof (Z.mod_pos_bound u 2 ltac:(lia)). lia. }
  unfold u. rewrite round_unfold by exact Hu. fold u.
  rewrite (Z.mod_small z u), (Z.div_small z u) by lia.
  destruct (Z.leb_spec (u / 2) z); [lia|].
  rewrite Z.mul_0_r. reflexivity.
Qed.

Lemma validate_loop_tiny P n : forall i tr s,
  let u := siloWindowsGetAllocationUnitSize P false in
  0 < u ->
  (forall j, (i <= j < i + n)%nat ->
     exists e, spec_mem s !! j = Some e /\
               0 <= topoGetNUMANodeOSIndex P (spec_numaNode e) /\
               0 <= spec_size e < u / 2) ->
  exists tr' s',
    validate_loop P n i tr 0 s = Returned (Some (tr', 0)) s' /\
    trace s' = trace s.
Proof.
  induction n as [|n IH]; intros i tr s u Hu Hall.
  - exists tr, s. split; reflexivity.
  - destruct (Hall i) as (e & He & Hnode & Hsize); [lia|].
    rewrite (validate_loop_step _ _ _ _ _ _ _ He).
    destruct (Z.gtb_spec 0 (topoGetNUMANodeOSIndex P (spec_numaNode e)));
      [lia|].
    rewrite round_below_half by assumption.
    change (size_t (0 + 0)) with 0.
    match goal with
    | |- context [validate_loop P n (S i) ?t 0 ?s1] =>
        destruct (IH (S i) t s1 Hu) as (tr' & s' & Hrun & Htr)
    end.
    + intros j Hj. destruct (Hall j) as (ej & Hej & Hrest); [lia|].
      exists ej. split; [|exact Hrest]. cbn.
      rewrite list_lookup_insert_ne by lia. exact Hej.
    + exists tr', s'. split; [exact Hrun | exact Htr].
Qed.

(** X12.  When every one of the [count] requests resolves and asks for less
    than half a unit (in particular when [count] is 0), the call returns
    NULL without any call to the system or to the pointer map. *)
Theorem requests_below_half_a_unit_fail
    (P : Platform) (fuel count : nat) (s : State) :
  let u := siloWindowsGetAllocationUnitSize P false in
  0 < u ->
  (forall j, (j < count)%nat ->
     exists e, spec_mem s !! j = Some e /\
               0 <= topoGetNUMANodeOSIndex P (spec_numaNode e) /\
               0 <= spec_size e < u / 2) ->
  exists s',
    siloMultinodeArrayAlloc P fuel count s = Returned NULL s' /\
    trace s' = trace s.
Proof.
  intros u Hu Hall.
  destruct (validate_loop_tiny P count 0 0 s Hu) as (tr' & s' & Hrun & Htr).
  { intros j Hj. apply Hall. lia. }
  exists s'. split; [|exact Htr].
  unfold siloMultinodeArrayAlloc, bind. rewrite Hrun. reflexivity.
Qed.

Lemma requests_below_half_a_unit_fail_witness :
  exists s',
    siloMultinodeArrayAlloc unit4096 0 2 tiny_requests = Returned NULL s' /\
    trace s' = trace tiny_requests.
Proof.
  apply (requests_below_half_a_unit_fail unit4096 0 2 tiny_requests).
  - reflexivity.
  - intros [|[|j]] Hj; [| |lia].
    + exists (mkMemorySpec 100 0). vm_compute. intuition congruence.
    + exists (mkMemorySpec 2047 1). vm_compute. intuition congruence.
Defined.

(** ** The padding loop *)

(** X13.  Below the wrap-around ([tr + u <= 2^64]) the padding loop is
    tight and keeps the two sums it updates in step: it ends after [k]
    iterations with the running total [ta + k*u], which covers [tr] and,
    when [k > 0], exceeds it by less than one unit; [k = 0] leaves the state
    as it was, and [k > 0] has added [k*u] (in [size_t]) to the size of
    [spec[count]]. *)
Theorem padding_is_tight (u : Z) (count fuel : nat) : forall tr ta s ta' s',
  0 < u -> 0 <= ta -> tr + u <= SIZE_MODULUS ->
  padding_loop fuel u count tr ta s = Returned ta' s' ->
  exists k : nat,
    ta' = ta + Z.of_nat k * u /\ tr <= ta' /\
    (k = 0%nat -> s' = s) /\
    ((0 < k)%nat ->
       ta' < tr + u /\
       exists e, spec_mem s !! count = Some e /\
                 spec_mem s' !! count =
                   Some (mkMemorySpec (size_t (spec_size e + Z.of_nat k * u))
                                      (spec_numaNode e))).
Proof.
  induction fuel as [|fuel IH]; intros tr ta s ta' s' Hu Hta Htop H.
  - destruct (Z_lt_ge_dec ta tr) as [Hlt|Hge];
      [now rewrite padding_loop_exhausted in H|].
    rewrite padding_loop_done in H by lia. injection H as <- <-.
    exists 0%nat. split; [lia|]. split; [lia|]. split; [auto|lia].
  - destruct (Z_lt_ge_dec ta tr) as [Hlt|Hge].
    2:{ rewrite padding_loop_done in H by lia. injection H as <- <-.
        exists 0%nat. split; [lia|]. split; [lia|]. split; [auto|lia]. }
    destruct (spec_mem s !! count) as [e|] eqn:He;
      [|now rewrite padding_loop_unaddressable in H].
    pose proof (lookup_lt_Some _ _ _ He) as Hcount.
    rewrite (padding_loop_step _ _ _ _ _ _ _ Hlt He) in H.
    rewrite size_t_small in H by (unfold SIZE_MODULUS in *; lia).
    apply IH in H as (k & Hk & Hcov & Hzero & Hpos); try lia.
    exists (S k). split; [lia|]. split; [exact Hcov|].
    split; [lia|]. intros _. split.
    + destruct k as [|k]; [lia|]. destruct Hpos as [Hpos _]; lia.
    + exists e. split; [reflexivity|].
      destruct k as [|k].
      * rewrite (Hzero eq_refl). cbn [spec_mem].
        rewrite list_lookup_insert_eq by exact Hcount.
        do 2 f_equal. f_equal. lia.
      * destruct Hpos as [_ (e1 & He1 & Hfinal)]; [lia|].
        cbn [spec_mem] in He1.
        rewrite list_lookup_insert_eq in He1 by exact Hcount.
        injection He1 as <-. rewrite Hfinal. cbn [spec_size spec_numaNode].
        rewrite size_t_add_l. do 2 f_equal. f_equal. lia.
Qed.

Lemma padding_is_tight_witness :
  exists k : nat,
    16384 = 12288 + Z.of_nat k * 4096 /\ 15000 <= 16384 /\
    (k = 0%nat ->
     mkState [mkMemorySpec 8192 0; mkMemorySpec 4096 1; mkMemorySpec 4173 3]
             [SpecRead 2; SpecWrite 2] []
     = initial [mkMemorySpec 8192 0; mkMemorySpec 4096 1; mkMemorySpec 77 3]) /\
    ((0 < k)%nat ->
       16384 < 15000 + 4096 /\
       exists e,
         spec_mem (initial [mkMemorySpec 8192 0; mkMemorySpec 4096 1;
                            mkMemorySpec 77 3]) !! 2%nat = Some e /\
         spec_mem (mkState [mkMemorySpec 8192 0; mkMemorySpec 4096 1;
                            mkMemorySpec 4173 3]
                           [SpecRead 2; SpecWrite 2] []) !! 2%nat =
           Some (mkMemorySpec (size_t (spec_size e + Z.of_nat k * 4096))
                              (spec_numaNode e))).
Proof.
  apply (padding_is_tight 4096 2 5 15000 12288
           (initial [mkMemorySpec 8192 0; mkMemorySpec 4096 1;
                     mkMemorySpec 77 3])).
  - reflexivity.
  - discriminate.
  - vm_compute. discriminate.
  - vm_compute. reflexivity.
Defined.

(** ** The accesses to the caller's array *)

Lemma insert_keeps_nodes (mem : list SSiloMemorySpec) i e v :
  mem !! i = Some e ->
  spec_numaNode <$> <[i := mkMemorySpec v (spec_numaNode e)]> mem
    = spec_numaNode <$> mem.
Proof.
  intros He. rewrite list_fmap_insert. apply list_insert_id.
  now rewrite list_lookup_fmap, He.
Qed.

Lemma validate_loop_footprint P n : forall i tr ta s out s',
  validate_loop P n i tr ta s = Returned out s' ->
  spec_numaNode <$> spec_mem s' = spec_numaNode <$> spec_mem s /\
  exists l, accesses s' = accesses s ++ l /\
            Forall (fun a => (i <= access_index a < i + n)%nat) l.
Proof.
  induction n as [|n IH]; intros i tr ta s out s' H.
  - cbn in H. apply ret_Returned in H as [_ ->]. split; [reflexivity|].
    exists []. now rewrite app_nil_r.
  - destruct (spec_mem s !! i) as [e|] eqn:He;
      [|now rewrite validate_loop_unaddressable in H].
    rewrite (validate_loop_step _ _ _ _ _ _ _ He) in H.
    destruct (0 >? topoGetNUMANodeOSIndex P (spec_numaNode e)).
    + injection H as <- <-. cbn. split; [reflexivity|].
      exists [SpecRead i]. split; [reflexivity|].
      repeat constructor; cbn; lia.
    + destruct (siloWindowsRoundRequestedAllocationSize P (spec_size e) false)
        as [rounded|]; [|discriminate].
      apply IH in H as (Hnodes & l & Hacc & Hl). cbn in Hnodes, Hacc.
      split; [now rewrite Hnodes, insert_keeps_nodes|].
      exists ([SpecRead i; SpecRead i; SpecRead i; SpecWrite i; SpecRead i] ++ l).
      split; [rewrite Hacc, <- !app_assoc; reflexivity|].
      apply Forall_app. split.
      * repeat constructor; cbn; lia.
      * eapply Forall_impl; [exact Hl|]. cbn. intros a Ha. lia.
Qed.

Lemma padding_loop_footprint u count fuel : forall tr ta s ta' s',
  padding_loop fuel u count tr ta s = Returned ta' s' ->
  spec_numaNode <$> spec_mem s' = spec_numaNode <$> spec_mem s /\
  exists l, accesses s' = accesses s ++ l /\
            Forall (fun a => access_index a = count) l /\
            (l = [] -> s' = s) /\ (l <> [] -> ta < tr).
Proof.
  induction fuel as [|fuel IH]; intros tr ta s ta' s' H.
  - destruct (Z_lt_ge_dec ta tr) as [Hlt|Hge];
      [now rewrite padding_loop_exhausted in H|].
    rewrite padding_loop_done in H by lia. injection H as <- <-.
    split; [reflexivity|]. exists []. rewrite app_nil_r.
    split; [reflexivity|]. split; [constructor|]. split; [reflexivity|easy].
  - destruct (Z_lt_ge_dec ta tr) as [Hlt|Hge].
    2:{ rewrite padding_loop_done in H by lia. injection H as <- <-.
        split; [reflexivity|]. exists []. rewrite app_nil_r.
        split; [reflexivity|]. split; [constructor|].
        split; [reflexivity|easy]. }
    destruct (spec_mem s !! count) as [e|] eqn:He;
      [|now rewrite padding_loop_unaddressable in H].
    rewrite (padding_loop_step _ _ _ _ _ _ _ Hlt He) in H.
    apply IH in H as (Hnodes & l & Hacc & Hl & _ & _). cbn in Hnodes, Hacc.
    split; [now rewrite Hnodes, insert_keeps_nodes|].
    exists ([SpecRead count; SpecWrite count] ++ l).
    split; [rewrite Hacc, <- !app_assoc; reflexivity|].
    split; [repeat constructor; exact Hl|].
    split; [discriminate | intros _; exact Hlt].
Qed.

Lemma commit_loop_footprint P n : forall i buf specs s exit s',
  commit_loop P n i buf specs s = Returned exit s' ->
  exists l, accesses s' = accesses s ++ l /\
            Forall (fun a => (i <= access_index a < i + n)%nat) l.
Proof.
  induction n as [|n IH]; intros i buf specs s exit s' H.
  - cbn in H. apply ret_Returned in H as [_ ->].
    exists []. now rewrite app_nil_r.
  - destruct (spec_mem s !! i) as [e|] eqn:He;
      [|now rewrite commit_loop_unaddressable in H].
    rewrite (commit_loop_step _ _ _ _ _ _ _ He) in H. cbn zeta in H.
    destruct (NULL =? _).
    + injection H as _ <-. cbn.
      exists [SpecRead i; SpecRead i].
      split; [rewrite <- app_assoc; reflexivity|].
      repeat constructor; cbn; lia.
    + apply IH in H as (l & Hacc & Hl). cbn in Hacc.
      exists ([SpecRead i; SpecRead i; SpecRead i; SpecRead i] ++ l).
      split; [rewrite Hacc, <- !app_assoc; reflexivity|].
      apply Forall_app. split.
      * repeat constructor; cbn; lia.
      * eapply Forall_impl; [exact Hl|]. cbn. intros a Ha. lia.
Qed.

Lemma rollback_loop_accesses n : forall i specs s u s',
  rollback_loop n i specs s = Returned u s' -> accesses s' = accesses s.
Proof.
  induction n as [|n IH]; intros i specs s u s' H.
  - cbn in H. now apply ret_Returned in H as [_ ->].
  - cbn in H. destruct (specs !! i); [|discriminate].
    unfold bind in H. cbn in H. now apply IH in H.
Qed.

(** What a returning call does to the array: the first loop ([l1]), the
    padding loop ([l2]) and the commit loop ([l3]). *)
Lemma siloMultinodeArrayAlloc_footprint P fuel count s r s' :
  siloMultinodeArrayAlloc P fuel count s = Returned r s' ->
  exists out s1 l1 l2 l3,
    validate_loop P count 0 0 0 s = Returned out s1 /\
    accesses s1 = accesses s ++ l1 /\
    Forall (fun a => (access_index a < count)%nat) l1 /\
    accesses s' = accesses s1 ++ l2 ++ l3 /\
    Forall (fun a => access_index a = count) l2 /\
    Forall (fun a => (access_index a < count)%nat) l3 /\
    (l2 <> [] -> exists tr ta, out = Some (tr, ta) /\ ta < tr) /\
    (l2 = [] -> spec_mem s' = spec_mem s1) /\
    (forall j, j <> count -> spec_mem s' !! j = spec_mem s1 !! j) /\
    spec_numaNode <$> spec_mem s' = spec_numaNode <$> spec_mem s1.
Proof.
  intros H. unfold siloMultinodeArrayAlloc in H.
  bind_step H. rename a into out, s0 into s1, Hstep into Hval.
  pose proof (validate_loop_footprint _ _ _ _ _ _ _ _ Hval)
    as (_ & l1 & Hacc1 & Hl1).
  exists out, s1, l1.
  assert (Hl1' : Forall (fun a => (access_index a < count)%nat) l1)
    by (eapply Forall_impl; [exact Hl1 | cbn; intros a Ha; lia]).
  assert (Hstop : r = NULL /\ s' = s1 ->
            exists l2 l3,
              validate_loop P count 0 0 0 s = Returned out s1 /\
              accesses s1 = accesses s ++ l1 /\
              Forall (fun a => (access_index a < count)%nat) l1 /\
              accesses s' = accesses s1 ++ l2 ++ l3 /\
              Forall (fun a => access_index a = count) l2 /\
              Forall (fun a => (access_index a < count)%nat) l3 /\
              (l2 <> [] -> exists tr ta, out = Some (tr, ta) /\ ta < tr) /\
              (l2 = [] -> spec_mem s' = spec_mem s1) /\
              (forall j, j <> count -> spec_mem s' !! j = spec_mem s1 !! j) /\
              spec_numaNode <$> spec_mem s' = spec_numaNode <$> spec_mem s1).
  { intros [_ ->]. exists [], []. rewrite app_nil_r.
    repeat (split; [first [assumption | reflexivity | constructor | easy]|]).
    reflexivity. }
  destruct out as [[tr ta]|]; [|apply ret_Returned in H; now apply Hstop].
  destruct (0 =? ta); [apply ret_Returned in H; now apply Hstop|].
  clear Hstop.
  bind_step H. rename a into total, s0 into s2, Hstep into Hpad.
  pose proof (padding_loop_Returned _ _ _ _ _ _ _ _ Hpad)
    as (_ & _ & Hother & _).
  apply padding_loop_footprint in Hpad as (Hnodes & l2 & Hacc2 & Hl2 & Hnone & Hsome).
  assert (Hrest : accesses s' = accesses s2 \/
                  exists l3, accesses s' = accesses s2 ++ l3 /\
                    Forall (fun a => (access_index a < count)%nat) l3).
  { bind_step H. rename a into base, s0 into s3, Hstep into Hprobe.
    assert (Hacc3 : accesses s3 = accesses s2).
    { unfold siloWindowsMemoryAllocAtNUMA in Hprobe. now injection Hprobe as _ <-. }
    destruct (NULL =? base);
      [apply ret_Returned in H as [_ ->]; now left|].
    bind_step H. rename s0 into s4, Hstep into Hfree.
    assert (Hacc4 : accesses s4 = accesses s3).
    { unfold siloMemoryFreeNUMA, log_event in Hfree. now injection Hfree as _ <-. }
    bind_step H. destruct a0 as [[[ok numAllocated] stop] specs].
    rename s0 into s5, Hstep into Hcommit.
    apply commit_loop_footprint in Hcommit as (l3 & Hacc5 & Hl3).
    right. exists l3. split; [|eapply Forall_impl; [exact Hl3 | cbn; intros; lia]].
    rewrite <- Hacc3, <- Hacc4, <- Hacc5.
    destruct ok; cbn [negb] in H.
    - destruct (specs !! 0%nat); [|discriminate].
      bind_step H. unfold siloPointerMapSubmit, log_event in Hstep.
      injection Hstep as _ <-. now apply ret_Returned in H as [_ ->].
    - bind_step H. apply rollback_loop_accesses in Hstep.
      now apply ret_Returned in H as [_ ->]. }
  assert (Hmem : spec_mem s' = spec_mem s2).
  { bind_step H. apply probe_Returned in Hstep as [Hm3 _].
    destruct (NULL =? a); [apply ret_Returned in H as [_ ->]; exact Hm3|].
    bind_step H. apply log_event_Returned in Hstep as [Hm4 _].
    bind_step H. destruct a1 as [[[ok numAllocated] stop] specs].
    apply commit_loop_Returned in Hstep as (Hm5 & _).
    destruct ok; cbn [negb] in H.
    - destruct (specs !! 0%nat); [|discriminate].
      bind_step H. apply log_event_Returned in Hstep as [Hm6 _].
      apply ret_Returned in H as [_ ->]. congruence.
    - bind_step H. apply rollback_loop_Returned in Hstep as [Hm6 _].
      apply ret_Returned in H as [_ ->]. congruence. }
  destruct Hrest as [Hacc|(l3 & Hacc & Hl3)].
  - exists l2, []. rewrite app_nil_r, Hmem.
    split; [exact Hval|]. split; [exact Hacc1|]. split; [exact Hl1'|].
    split; [now rewrite Hacc|]. split; [exact Hl2|]. split; [constructor|].
    split; [intros Hne; exists tr, ta; auto|].
    split; [intros E; now rewrite (Hnone E)|]. split; [exact Hother|exact Hnodes].
  - exists l2, l3. rewrite Hmem.
    split; [exact Hval|]. split; [exact Hacc1|]. split; [exact Hl1'|].
    split; [now rewrite Hacc, Hacc2, <- app_assoc|].
    split; [exact Hl2|]. split; [exact Hl3|].
    split; [intros Hne; exists tr, ta; auto|].
    split; [intros E; now rewrite (Hnone E)|]. split; [exact Hother|exact Hnodes].
Qed.

(** X14.  A returning call never reads or writes an element of index above
    [count]: every access it makes goes to one of the [count] elements of
    the array or to the element of index [count]. *)
Theorem accesses_stay_within_count
    (P : Platform) (fuel count : nat) (s : State) (r : Z) (s' : State) :
  siloMultinodeArrayAlloc P fuel count s = Returned r s' ->
  exists l, accesses s' = accesses s ++ l /\
            Forall (fun a => (access_index a <= count)%nat) l.
Proof.
  intros H. apply siloMultinodeArrayAlloc_footprint in H
    as (out & s1 & l1 & l2 & l3 & _ & Hacc1 & Hl1 & Hacc & Hl2 & Hl3 & _).
  exists (l1 ++ l2 ++ l3). split; [now rewrite Hacc, Hacc1, <- app_assoc|].
  repeat (apply Forall_app; split);
    (eapply Forall_impl; [eassumption | cbn; intros; lia]).
Qed.

Lemma accesses_stay_within_count_witness :
  exists l, accesses scenario_final = accesses scenario ++ l /\
            Forall (fun a => (access_index a <= 2)%nat) l.
Proof.
  apply (accesses_stay_within_count unit4096 10 2 scenario 65536 scenario_final).
  vm_compute. reflexivity.
Defined.

Lemma validate_loop_fixed P n : forall i t s out s',
  validate_loop P n i t t s = Returned out s' ->
  (forall j e, (i <= j < i + n)%nat -> spec_mem s !! j = Some e ->
     siloWindowsRoundRequestedAllocationSize P (spec_size e) false
       = Some (spec_size e)) ->
  spec_mem s' = spec_mem s /\
  match out with
  | Some (tr', ta') => tr' = ta'
  | None => True
  end.
Proof.
  induction n as [|n IH]; intros i t s out s' H Hfix.
  - cbn in H. apply ret_Returned in H as [-> ->]. auto.
  - destruct (spec_mem s !! i) as [e|] eqn:He;
      [|now rewrite validate_loop_unaddressable in H].
    rewrite (validate_loop_step _ _ _ _ _ _ _ He) in H.
    destruct (0 >? topoGetNUMANodeOSIndex P (spec_numaNode e)).
    + injection H as <- <-. auto.
    + rewrite (Hfix i e) in H by (lia || exact He).
      assert (Hsame : <[i := mkMemorySpec (spec_size e) (spec_numaNode e)]>
                        (spec_mem s) = spec_mem s).
      { apply list_insert_id. rewrite He. now destruct e. }
      rewrite Hsame in H. destruct (IH _ _ _ _ _ H) as [Hmem Hout].
      * cbn. intros j ej Hj Hej. apply (Hfix j ej); [lia | exact Hej].
      * split; [exact Hmem | exact Hout].
Qed.

(** X15.  When the size of every one of the [count] requests is rounded to
    itself (a multiple of the unit, see X2), a returning call leaves the
    memory behind [spec] as it was, and every access it makes goes to one of
    the [count] elements of the array: the padding loop does not run. *)
Theorem rounded_requests_stay_in_bounds
    (P : Platform) (fuel count : nat) (s : State) (r : Z) (s' : State) :
  siloMultinodeArrayAlloc P fuel count s = Returned r s' ->
  (forall j e, (j < count)%nat -> spec_mem s !! j = Some e ->
     siloWindowsRoundRequestedAllocationSize P (spec_size e) false
       = Some (spec_size e)) ->
  spec_mem s' = spec_mem s /\
  exists l, accesses s' = accesses s ++ l /\
            Forall (fun a => (access_index a < count)%nat) l.
Proof.
  intros H Hfix. apply siloMultinodeArrayAlloc_footprint in H
    as (out & s1 & l1 & l2 & l3 & Hval & Hacc1 & Hl1 & Hacc & Hl2 & Hl3
        & Hsome & Hnone & _).
  destruct (validate_loop_fixed _ _ _ _ _ _ _ Hval) as [Hmem Hout].
  { intros j e Hj He. apply (Hfix j e); [lia | exact He]. }
  assert (E : l2 = []).
  { destruct l2 as [|a l2]; [reflexivity|].
    destruct Hsome as (tr & ta & -> & Hlt); [discriminate|]. lia. }
  subst l2. split; [now rewrite Hnone, Hmem|].
  exists (l1 ++ l3). split; [now rewrite Hacc, Hacc1, <- app_assoc|].
  apply Forall_app. auto.
Qed.

Lemma rounded_requests_stay_in_bounds_witness :
  exists s',
    siloMultinodeArrayAlloc unit4096 0 2 rounded_requests = Returned 65536 s' /\
    spec_mem s' = spec_mem rounded_requests /\
    exists l, accesses s' = accesses rounded_requests ++ l /\
              Forall (fun a => (access_index a < 2)%nat) l.
Proof.
  eexists. split; [vm_compute; reflexivity|].
  eapply (rounded_requests_stay_in_bounds unit4096 0 2 rounded_requests 65536).
  - vm_compute. reflexivity.
  - intros [|[|j]] e Hj He; [| |lia]; cbn in He; injection He as <-;
      vm_compute; reflexivity.
Defined.

(** X16.  A returning call keeps the length of the memory behind [spec] and
    the node of every object in it, and leaves every object of index above
    [count] as it was. *)
Theorem nodes_and_memory_beyond_are_kept
    (P : Platform) (fuel count : nat) (s : State) (r : Z) (s' : State) :
  siloMultinodeArrayAlloc P fuel count s = Returned r s' ->
  spec_numaNode <$> spec_mem s' = spec_numaNode <$> spec_mem s /\
  length (spec_mem s') = length (spec_mem s) /\
  forall j, (count < j)%nat -> spec_mem s' !! j = spec_mem s !! j.
Proof.
  intros H. apply siloMultinodeArrayAlloc_footprint in H
    as (out & s1 & l1 & l2 & l3 & Hval & _ & _ & _ & _ & _ & _ & _
        & Hother & Hnodes).
  pose proof (validate_loop_footprint _ _ _ _ _ _ _ _ Hval) as (Hnodes1 & _).
  pose proof (validate_loop_Returned _ _ _ _ _ _ _ _ Hval)
    as (_ & k & Hk & (_ & _ & Hout) & _).
  assert (Hn : spec_numaNode <$> spec_mem s' = spec_numaNode <$> spec_mem s)
    by congruence.
  split; [exact Hn|]. split.
  - rewrite <- (length_fmap spec_numaNode (spec_mem s')), Hn.
    apply length_fmap.
  - intros j Hj. rewrite Hother by lia. apply Hout. lia.
Qed.

Lemma nodes_and_memory_beyond_are_kept_witness :
  spec_numaNode <$> spec_mem scenario_final
    = spec_numaNode <$> spec_mem scenario /\
  length (spec_mem scenario_final) = length (spec_mem scenario) /\
  forall j, (2 < j)%nat -> spec_mem scenario_final !! j = spec_mem scenario !! j.
Proof.
  apply (nodes_and_memory_beyond_are_kept unit4096 10 2 scenario 65536
           scenario_final).
  vm_compute. reflexivity.
Defined.
